(** * File-Zipper: the compression heuristic and the archive builder

    A shallow embedding of [zip-file-maker.py]: the class
    [AdvancedCompression] (entropy sampling, signature sniffing, text
    preprocessing and the compression driver) and the state of
    [ZipMakerGUI] (the list of selected files, the tree view, the
    processing flag and the archive written by [create_zip]).

    Python values are modelled as the interpreter has them: [bytes] is a
    list of bytes, [str] a list of code points, an [int] is unbounded, a
    [float] is kept apart from [int] because attribute lookup depends on
    the run-time type, and a raised exception is an explicit outcome. *)

From Stdlib Require Import ZArith QArith Qround List String Ascii Bool Lia.
From Stdlib.Strings Require Import Byte.
From stdpp Require Import gmap strings list fin_maps pretty.

Local Open Scope Z_scope.

(** ** Exceptions and outcomes *)

(** The exception classes that the program can meet.  All of them derive
    from [Exception], which is what the handlers of the program catch. *)
Inductive exn : Type :=
  | AttributeError (type_name attr : string)
  | UnicodeDecodeError
  | UnicodeEncodeError
  | ZeroDivisionError
  | OSError (path : string)
  | LibraryError (what : string).

Inductive result (A : Type) : Type :=
  | Ok (a : A)
  | Raise (e : exn).
Arguments Ok {A} a.
Arguments Raise {A} e.

#[global] Instance result_ret : MRet result := fun A a => Ok a.
#[global] Instance result_bind : MBind result := fun A B f m =>
  match m with
  | Ok a => f a
  | Raise e => Raise e
  end.

#[global] Instance exn_eq_dec : EqDecision exn.
Proof. solve_decision. Defined.

#[global] Instance byte_eq_dec : EqDecision byte := Byte.byte_eq_dec.

(** [for x in xs: acc = body(acc, x)] where the body may raise. *)
Fixpoint for_each {A S : Type} (body : S -> A -> result S) (xs : list A) (acc : S)
  : result S :=
  match xs with
  | [] => Ok acc
  | x :: xs' => acc' ← body acc x; for_each body xs' acc'
  end.

Definition bytes := list byte.

Definition byte_val (b : byte) : Z := Z.of_N (Byte.to_N b).

(** ** Python numbers *)

Module PyNum.

(** A float is idealised as the rational it stands for; nothing below
    depends on how a value is rounded. *)
Inductive pynum : Type :=
  | PyInt (n : Z)
  | PyFloat (x : Q).

Definition to_Q (v : pynum) : Q :=
  match v with
  | PyInt n => inject_Z n
  | PyFloat x => x
  end.

(** [a / b]: true division, always a float. *)
Definition truediv (a b : pynum) : result pynum :=
  if Qeq_bool (to_Q b) 0 then Raise ZeroDivisionError
  else Ok (PyFloat (Qred (to_Q a / to_Q b))).

Definition mul (a b : pynum) : pynum :=
  match a, b with
  | PyInt m, PyInt n => PyInt (m * n)
  | _, _ => PyFloat (Qred (to_Q a * to_Q b))
  end.

Definition sub (a b : pynum) : pynum :=
  match a, b with
  | PyInt m, PyInt n => PyInt (m - n)
  | _, _ => PyFloat (Qred (to_Q a - to_Q b))
  end.

(** [v.bit_length()]: the method exists on [int] only. *)
Definition bit_length (v : pynum) : result pynum :=
  match v with
  | PyInt n => Ok (PyInt (if Z.eqb n 0 then 0 else Z.log2 (Z.abs n) + 1))
  | PyFloat _ => Raise (AttributeError "float" "bit_length")
  end.

(** [v > x] *)
Definition gt (v : pynum) (x : Q) : bool := negb (Qle_bool (to_Q v) x).

End PyNum.
Import PyNum.

(** ** collections.Counter over a byte string *)

Fixpoint counter_incr (b : byte) (c : list (byte * Z)) : list (byte * Z) :=
  match c with
  | [] => [(b, 1)]
  | (k, n) :: c' =>
      if decide (k = b) then (k, n + 1) :: c' else (k, n) :: counter_incr b c'
  end.

(** Keys are kept in order of first occurrence, as a [dict] keeps them. *)
Definition Counter (data : bytes) : list (byte * Z) :=
  fold_left (fun c b => counter_incr b c) data [].

Definition values (c : list (byte * Z)) : list Z := map snd c.

Definition len {A} (l : list A) : Z := Z.of_nat (length l).

(** ** AdvancedCompression: the heuristic *)

Definition _calculate_entropy (data : bytes) : result pynum :=
  match data with
  | [] => Ok (PyInt 0)
  | _ =>
      let counts := Counter data in
      let total := len data in
      for_each
        (fun entropy count =>
           probability ← truediv (PyInt count) (PyInt total);
           bits ← bit_length probability;
           Ok (sub entropy (mul probability bits)))
        (values counts) (PyInt 0)
  end.

Fixpoint startswith (data sig : bytes) : bool :=
  match sig, data with
  | [], _ => true
  | s :: sig', d :: data' => bool_decide (s = d) && startswith data' sig'
  | _ :: _, [] => false
  end.

Definition compression_signatures : list bytes :=
  [ [x50; x4b; x03; x04]        (* ZIP   PK\x03\x04 *)
  ; [x1f; x8b]                  (* GZIP *)
  ; [x42; x5a; x68]             (* BZIP2 BZh *)
  ; [xfd; x37; x7a; x58; x5a]   (* XZ    \xFD7zXZ *)
  ; [x89; x50; x4e; x47]        (* PNG   \x89PNG *)
  ; [xff; xd8; xff]             (* JPEG *)
  ].

Definition _is_compressed (data : bytes) : bool :=
  existsb (startswith data) compression_signatures.

Definition analyze_data (data : bytes) : result string :=
  entropy ← _calculate_entropy (take 4096 data);
  if _is_compressed (take 4096 data) then Ok "store"%string
  else if len data <? 1024 then Ok "zlib"%string
  else if gt entropy (15 # 2) then Ok "lzma"%string
  else if gt entropy (13 # 2) then Ok "bzip2"%string
  else Ok "zlib"%string.

(** ** Text: [str] as a list of code points *)

Definition str := list Z.

(** A code point that UTF-8 can carry: in range and not a surrogate. *)
Definition is_scalar (c : Z) : Prop :=
  0 <= c <= 1114111 /\ ~ (55296 <= c <= 57343).

Definition in_range (lo hi v : Z) : bool := (lo <=? v) && (v <=? hi).

(** Payload of a continuation byte. *)
Definition cont (b : byte) : Z := byte_val b mod 64.

(** [data.decode('utf-8')], strict: overlong forms, surrogates, values
    above U+10FFFF, stray continuation bytes and truncated sequences are
    all refused. *)
Fixpoint utf8_decode (data : bytes) : result str :=
  match data with
  | [] => Ok []
  | b0 :: r0 =>
      let v0 := byte_val b0 in
      if v0 <? 128 then text ← utf8_decode r0; Ok (v0 :: text)
      else if in_range 194 223 v0 then
        match r0 with
        | b1 :: r1 =>
            if in_range 128 191 (byte_val b1)
            then text ← utf8_decode r1; Ok ((v0 mod 32) * 64 + cont b1 :: text)
            else Raise UnicodeDecodeError
        | _ => Raise UnicodeDecodeError
        end
      else if in_range 224 239 v0 then
        match r0 with
        | b1 :: b2 :: r2 =>
            let lo := if v0 =? 224 then 160 else 128 in
            let hi := if v0 =? 237 then 159 else 191 in
            if in_range lo hi (byte_val b1) && in_range 128 191 (byte_val b2)
            then text ← utf8_decode r2;
                 Ok ((v0 mod 16) * 4096 + cont b1 * 64 + cont b2 :: text)
            else Raise UnicodeDecodeError
        | _ => Raise UnicodeDecodeError
        end
      else if in_range 240 244 v0 then
        match r0 with
        | b1 :: b2 :: b3 :: r3 =>
            let lo := if v0 =? 240 then 144 else 128 in
            let hi := if v0 =? 244 then 143 else 191 in
            if in_range lo hi (byte_val b1) && in_range 128 191 (byte_val b2)
               && in_range 128 191 (byte_val b3)
            then text ← utf8_decode r3;
                 Ok ((v0 mod 8) * 262144 + cont b1 * 4096 + cont b2 * 64 + cont b3
                       :: text)
            else Raise UnicodeDecodeError
        | _ => Raise UnicodeDecodeError
        end
      else Raise UnicodeDecodeError
  end.

Definition byte_of_Z (v : Z) : byte :=
  match Byte.of_N (Z.to_N v) with
  | Some b => b
  | None => x00
  end.

Definition utf8_encode_char (c : Z) : result bytes :=
  if in_range 0 127 c then Ok [byte_of_Z c]
  else if in_range 128 2047 c then
    Ok [byte_of_Z (192 + c / 64); byte_of_Z (128 + c mod 64)]
  else if in_range 55296 57343 c then Raise UnicodeEncodeError
  else if in_range 2048 65535 c then
    Ok [byte_of_Z (224 + c / 4096); byte_of_Z (128 + (c / 64) mod 64);
        byte_of_Z (128 + c mod 64)]
  else if in_range 65536 1114111 c then
    Ok [byte_of_Z (240 + c / 262144); byte_of_Z (128 + (c / 4096) mod 64);
        byte_of_Z (128 + (c / 64) mod 64); byte_of_Z (128 + c mod 64)]
  else Raise UnicodeEncodeError.

(** [text.encode('utf-8')], strict: a lone surrogate is refused. *)
Fixpoint utf8_encode (text : str) : result bytes :=
  match text with
  | [] => Ok []
  | c :: text' =>
      bs ← utf8_encode_char c; rest ← utf8_encode text'; Ok (bs ++ rest)
  end.

(** The characters [str.split()] treats as separators ([str.isspace]). *)
Definition is_space (c : Z) : bool :=
  in_range 9 13 c || in_range 28 32 c || (c =? 133) || (c =? 160)
  || (c =? 5760) || in_range 8192 8202 c || (c =? 8232) || (c =? 8233)
  || (c =? 8239) || (c =? 8287) || (c =? 12288).

(** [text.split()]: maximal runs of non-space characters.  [word] is the
    run being read, most recent character first. *)
Fixpoint split_go (word : str) (text : str) : list str :=
  match text with
  | [] => if bool_decide (word = []) then [] else [rev word]
  | c :: text' =>
      if is_space c
      then (if bool_decide (word = []) then [] else [rev word]) ++ split_go [] text'
      else split_go (c :: word) text'
  end.

Definition str_split (text : str) : list str := split_go [] text.

(** [sep.join(words)] *)
Fixpoint str_join (sep : str) (words : list str) : str :=
  match words with
  | [] => []
  | [w] => w
  | w :: ws => w ++ sep ++ str_join sep ws
  end.

(** ** What the program takes from its libraries

    The compressors and the Unicode character database are not part of the
    program; they are taken as given.  A compressor may raise. *)
Class Extern : Type := {
  (** [zlib.compress(data, level)] *)
  zlib_compress : bytes -> Z -> result bytes;
  (** [bz2.compress(data, compresslevel)] *)
  bz2_compress : bytes -> Z -> result bytes;
  (** [lzma.compress(data, format=FORMAT_RAW, filters=[LZMA2 preset])] *)
  lzma_compress : bytes -> Z -> result bytes;
  (** per character: alphabetic, decimal, digit or numeric *)
  isalnum_char : Z -> bool;
  (** [str.lower] *)
  str_lower : str -> str;
  (** lower-casing never produces a surrogate or an out-of-range value *)
  str_lower_scalar : forall s, Forall is_scalar s -> Forall is_scalar (str_lower s);
}.

Section AdvancedCompression.
Context `{E : Extern}.

(** [text.isalnum()]: every character qualifies and there is at least one. *)
Definition str_isalnum (text : str) : bool :=
  negb (bool_decide (text = [])) && forallb isalnum_char text.

Definition preprocess_text (data : bytes) : result bytes :=
  match utf8_decode data with
  | Ok text =>
      let text := str_join [32] (str_split text) in
      let text := if str_isalnum text then str_lower text else text in
      utf8_encode text
  | Raise UnicodeDecodeError => Ok data
  | Raise e => Raise e
  end.

(** The three levels tried for zlib; the shortest output so far wins,
    starting from the uncompressed data itself. *)
Definition zlib_try (data : bytes) (best : bytes * Z) (level : Z)
  : result (bytes * Z) :=
  try_compressed ← zlib_compress data level;
  if len try_compressed <? len (fst best)
  then Ok (try_compressed, level)
  else Ok best.

(** The guarded block of [compress_data]: what runs between [try] and
    [except]. *)
Definition compress_guarded (data : bytes) (method : string)
  : result (bytes * string) :=
  if decide (method = "store"%string) then Ok (data, "store"%string)
  else
    '(compressed, compression_method) ←
      (if decide (method = "zlib"%string) then
         '(best_compressed, best_level) ←
           for_each (zlib_try data) [1; 6; 9] (data, 6);
         Ok (Some best_compressed, ("zlib-" +:+ pretty best_level)%string)
       else if decide (method = "bzip2"%string) then
         c ← bz2_compress data 9; Ok (Some c, "bzip2"%string)
       else if decide (method = "lzma"%string) then
         c ← lzma_compress data 9; Ok (Some c, "lzma"%string)
       else Ok (None, ""%string));
    match compressed with
    | Some c =>
        if negb (bool_decide (c = [])) && (len c <? len data)
        then Ok (c, compression_method)
        else Ok (data, "store"%string)
    | None => Ok (data, "store"%string)
    end.

(** The data as it stands when the guarded block is entered. *)
Definition preprocessed (data : bytes) (method : string) : result bytes :=
  if negb (bool_decide (method = "store"%string))
     && negb (_is_compressed (take 4096 data))
  then preprocess_text data else Ok data.

(** [compress_data].  The handler also prints the error, which changes
    nothing that is modelled here. *)
Definition compress_data (data : bytes) (method : string)
  : result (bytes * string) :=
  method ← (if decide (method = "auto"%string) then analyze_data data
            else Ok method);
  data ← preprocessed data method;
  match compress_guarded data method with
  | Ok r => Ok r
  | Raise e => Ok (data, "store"%string)    (* except Exception *)
  end.

End AdvancedCompression.

(** ** ZipMakerGUI *)

(** [os.path.basename] (POSIX flavour): what follows the last slash. *)
Fixpoint basename_go (acc : string) (p : string) : string :=
  match p with
  | EmptyString => acc
  | String c p' =>
      if bool_decide (c = "/"%char) then basename_go EmptyString p'
      else basename_go (acc +:+ String c EmptyString) p'
  end.

Definition basename (p : string) : string := basename_go EmptyString p.

(** [f"{x:.1f}"]: one decimal, nearest, ties to even.  Sizes are exact
    multiples of a power of two, so the rational is the float. *)
Definition round_half_even (x : Q) : Z :=
  let f := Qfloor x in
  match Qcompare (x - inject_Z f) (1 # 2) with
  | Lt => f
  | Gt => f + 1
  | Eq => if Z.even f then f else f + 1
  end.

Definition format_1f (x : Q) : string :=
  let t := round_half_even (x * 10) in
  (pretty (t / 10) +:+ "." +:+ pretty (t mod 10))%string.

Fixpoint format_size_go (units : list string) (size : Q) : string :=
  match units with
  | [] => (format_1f size +:+ " TB")%string
  | unit :: units' =>
      if negb (Qle_bool 1024 size) then (format_1f size +:+ " " +:+ unit)%string
      else format_size_go units' (size / 1024)
  end.

Definition format_size (size : Z) : string :=
  format_size_go ["B"; "KB"; "MB"; "GB"]%string (inject_Z size).

(** A row of the tree view: the two columns [size] and [path]. *)
Record row : Type := { row_size : string; row_path : string }.

(** What the status label shows. *)
Inductive status : Type :=
  | Ready
  | Processing (name : string)
  | Created (original_size compressed_size : Z)
  | Failed (e : exn).

(** A message box put in front of the user. *)
Inductive dialog : Type :=
  | showwarning (text : string)
  | showinfo (original_size compressed_size : Z)
  | showerror (e : exn).

(** One member of the archive. *)
Record zip_entry : Type := { arcname : string; payload : bytes }.

(** The container format, taken from [zipfile]: the bytes of a closed
    archive, and the bytes a reader finds on disk while the archive is
    still open for writing. *)
Class ZipFormat : Type := {
  zip_bytes : list zip_entry -> bytes;
  zip_partial : list zip_entry -> bytes;
  (** a closed archive ends with its directory record, so it is never empty *)
  zip_bytes_nonempty : forall entries, zip_bytes entries <> [];
}.

(** The fields of the window object that the callbacks read or write. *)
Record gui : Type := {
  files_to_zip : list string;
  tree : list row;
  compression_method : string;
  is_processing : bool;
  buttons_normal : bool;
  progress_var : Q;
  status_label : status;
}.

(** The file system: the files that exist with their contents, and the
    paths at which creating a file is refused. *)
Record filesystem : Type := {
  files : gmap string bytes;
  denied : gset string;
}.

Definition read_file (fs : filesystem) (path : string) : result bytes :=
  match files fs !! path with
  | Some data => Ok data
  | None => Raise (OSError path)
  end.

(** [os.path.getsize] *)
Definition getsize (fs : filesystem) (path : string) : result Z :=
  data ← read_file fs path; Ok (len data).

Definition write_file (fs : filesystem) (path : string) (data : bytes) : filesystem :=
  {| files := <[path := data]> (files fs); denied := denied fs |}.

Definition initial_gui : gui :=
  {| files_to_zip := []; tree := []; compression_method := "auto";
     is_processing := false; buttons_normal := true;
     progress_var := 0; status_label := Ready |}.

Definition set_files (g : gui) (fl : list string) : gui :=
  {| files_to_zip := fl; tree := tree g;
     compression_method := compression_method g;
     is_processing := is_processing g; buttons_normal := buttons_normal g;
     progress_var := progress_var g; status_label := status_label g |}.

Definition set_tree (g : gui) (t : list row) : gui :=
  {| files_to_zip := files_to_zip g; tree := t;
     compression_method := compression_method g;
     is_processing := is_processing g; buttons_normal := buttons_normal g;
     progress_var := progress_var g; status_label := status_label g |}.

Definition set_method (g : gui) (m : string) : gui :=
  {| files_to_zip := files_to_zip g; tree := tree g;
     compression_method := m;
     is_processing := is_processing g; buttons_normal := buttons_normal g;
     progress_var := progress_var g; status_label := status_label g |}.

(** The three buttons are enabled and disabled together. *)
Definition update_buttons_state (g : gui) : gui :=
  {| files_to_zip := files_to_zip g; tree := tree g;
     compression_method := compression_method g;
     is_processing := is_processing g;
     buttons_normal := negb (is_processing g);
     progress_var := progress_var g; status_label := status_label g |}.

(** [self.is_processing = b; self.update_buttons_state()] *)
Definition set_processing (g : gui) (b : bool) : gui :=
  update_buttons_state
    {| files_to_zip := files_to_zip g; tree := tree g;
       compression_method := compression_method g;
       is_processing := b; buttons_normal := buttons_normal g;
       progress_var := progress_var g; status_label := status_label g |}.

Definition update_progress (g : gui) (value : Q) : gui :=
  {| files_to_zip := files_to_zip g; tree := tree g;
     compression_method := compression_method g;
     is_processing := is_processing g; buttons_normal := buttons_normal g;
     progress_var := value; status_label := status_label g |}.

Definition update_status (g : gui) (message : status) : gui :=
  {| files_to_zip := files_to_zip g; tree := tree g;
     compression_method := compression_method g;
     is_processing := is_processing g; buttons_normal := buttons_normal g;
     progress_var := progress_var g; status_label := message |}.

(** One round of the loop of [add_files].  The path is appended before its
    size is asked for, so a failing [getsize] leaves it in the list
    without a row; the exception then ends the callback. *)
Definition add_file (fs : filesystem) (g : gui) (file : string) : gui * option exn :=
  if decide (file ∈ files_to_zip g) then (g, None)
  else
    let g := set_files g (files_to_zip g ++ [file]) in
    match getsize fs file with
    | Ok size =>
        (set_tree g (tree g ++ [{| row_size := format_size size;
                                   row_path := file |}]), None)
    | Raise e => (g, Some e)
    end.

(** [add_files], given what the file dialog returned. *)
Fixpoint add_files (fs : filesystem) (g : gui) (chosen : list string)
  : gui * option exn :=
  match chosen with
  | [] => (g, None)
  | file :: chosen' =>
      match add_file fs g file with
      | (g', None) => add_files fs g' chosen'
      | (g', Some e) => (g', Some e)
      end
  end.

Definition clear_files (g : gui) : gui := set_tree (set_files g []) [].

(** What [create_zip_threaded] does next: nothing, or start the worker
    thread on [create_zip] with the chosen path. *)
Inductive spawn : Type :=
  | NoThread
  | StartThread (output_path : string).

(** [create_zip_threaded].  [answer] is what the save dialog returns when
    it is shown; the empty string means the user cancelled. *)
Definition create_zip_threaded (g : gui) (answer : string)
  : gui * list dialog * spawn :=
  if bool_decide (files_to_zip g = []) then
    (g, [showwarning "No files selected!"], NoThread)
  else if is_processing g then
    (g, [showwarning "Already processing!"], NoThread)
  else
    let output_path := answer in
    if negb (bool_decide (output_path = ""%string)) then
      (set_processing g true, [], StartThread output_path)
    else (g, [], NoThread).

(** The local state of [create_zip] while the archive is open: the window,
    the disk, the members written so far and the two running totals. *)
Record run : Type := {
  run_gui : gui;
  run_fs : filesystem;
  run_entries : list zip_entry;
  original_size : Z;
  compressed_size : Z;
}.

Section CreateZip.
Context `{E : Extern} `{F : ZipFormat}.

(** [zipf.writestr] and [zipf.write] both add one member at the end and
    leave the unfinished archive on disk. *)
Definition add_member (output_path : string) (st : run) (e : zip_entry)
  (g : gui) (orig comp : Z) : run :=
  let entries := run_entries st ++ [e] in
  {| run_gui := g;
     run_fs := write_file (run_fs st) output_path (zip_partial entries);
     run_entries := entries;
     original_size := orig;
     compressed_size := comp |}.

Definition arc_name_for (file_path used_method : string) : string :=
  if decide (used_method = "store"%string) then basename file_path
  else (basename file_path +:+ "." +:+ used_method)%string.

(** The body of the loop over [enumerate(self.files_to_zip, 1)]. *)
Definition zip_one (output_path : string) (total_files : Z)
  (st : run) (index : Z) (file_path : string) : run * option exn :=
  let g := update_status (run_gui st) (Processing (basename file_path)) in
  let stop orig e :=
    ({| run_gui := g; run_fs := run_fs st; run_entries := run_entries st;
        original_size := orig; compressed_size := compressed_size st |},
     Some e) in
  match read_file (run_fs st) file_path with
  | Raise e => stop (original_size st) e
  | Ok data =>
      let orig := original_size st + len data in
      let method := compression_method g in
      let written :=
        if negb (bool_decide (method = "store"%string)) then
          match compress_data data method with
          | Raise e => inr e
          | Ok (compressed_data, used_method) =>
              inl (add_member output_path st
                     {| arcname := arc_name_for file_path used_method;
                        payload := compressed_data |}
                     g orig (compressed_size st + len compressed_data))
          end
        else
          (* zipf.write reads the file itself *)
          match read_file (run_fs st) file_path with
          | Raise e => inr e
          | Ok content =>
              let st' := add_member output_path st
                           {| arcname := basename file_path;
                              payload := content |}
                           g orig (compressed_size st) in
              match getsize (run_fs st') file_path with
              | Raise e => inr e
              | Ok size =>
                  inl {| run_gui := g; run_fs := run_fs st';
                         run_entries := run_entries st';
                         original_size := orig;
                         compressed_size := compressed_size st + size |}
              end
          end in
      match written with
      | inr e => stop orig e
      | inl st' =>
          match truediv (PyInt index) (PyInt total_files) with
          | Raise e =>
              ({| run_gui := g; run_fs := run_fs st';
                  run_entries := run_entries st';
                  original_size := original_size st';
                  compressed_size := compressed_size st' |}, Some e)
          | Ok fraction =>
              let progress := to_Q (mul fraction (PyInt 100)) in
              ({| run_gui := update_progress g progress; run_fs := run_fs st';
                  run_entries := run_entries st';
                  original_size := original_size st';
                  compressed_size := compressed_size st' |}, None)
          end
      end
  end.

Fixpoint zip_loop (output_path : string) (total_files : Z)
  (file_paths : list string) (index : Z) (st : run) : run * option exn :=
  match file_paths with
  | [] => (st, None)
  | file_path :: rest =>
      match zip_one output_path total_files st index file_path with
      | (st', None) => zip_loop output_path total_files rest (index + 1) st'
      | (st', Some e) => (st', Some e)
      end
  end.

(** The [with zipfile.ZipFile(output_path, 'w', ...)] block: creating the
    archive truncates the path; leaving the block, normally or not,
    closes the archive with the members written so far. *)
Definition with_zipfile (g : gui) (fs : filesystem) (output_path : string)
  : run * option exn :=
  let st0 := {| run_gui := g; run_fs := fs; run_entries := [];
                original_size := 0; compressed_size := 0 |} in
  if decide (output_path ∈ denied fs) then (st0, Some (OSError output_path))
  else
    let opened :=
      {| run_gui := g; run_fs := write_file fs output_path (zip_partial []);
         run_entries := []; original_size := 0; compressed_size := 0 |} in
    let '(st, raised) :=
      zip_loop output_path (len (files_to_zip g)) (files_to_zip g) 1 opened in
    ({| run_gui := run_gui st;
        run_fs := write_file (run_fs st) output_path (zip_bytes (run_entries st));
        run_entries := run_entries st;
        original_size := original_size st;
        compressed_size := compressed_size st |}, raised).

(** [create_zip]: the [try] block, the handler and the [finally] part. *)
Definition create_zip (g : gui) (fs : filesystem) (output_path : string)
  : gui * filesystem * list dialog :=
  let '(st, raised) := with_zipfile g fs output_path in
  let failed e := (update_status (run_gui st) (Failed e), [showerror e]) in
  let '(g', shown) :=
    match raised with
    | Some e => failed e
    | None =>
        match truediv (PyInt (compressed_size st)) (PyInt (original_size st)) with
        | Raise e => failed e
        | Ok _ =>
            (update_status (run_gui st)
               (Created (original_size st) (compressed_size st)),
             [showinfo (original_size st) (compressed_size st)])
        end
    end in
  (update_progress (set_processing g' false) 0, run_fs st, shown).

(** *** The window as a machine *)

(** The window, the disk, and the worker thread if one is running. *)
Record world : Type := {
  w_gui : gui;
  w_fs : filesystem;
  worker : option string;
}.

Inductive event : Type :=
  | ClickAdd (chosen : list string)
  | ClickClear
  | ClickCreate (answer : string)
  | SelectMethod (m : string)
  | WorkerRuns.

(** The values of the five radio buttons. *)
Definition methods : list string := ["auto"; "zlib"; "bzip2"; "lzma"; "store"]%string.

(** What an event does; [None] when the widget is disabled or there is
    no worker to run.  The run of the worker is one step: the three
    buttons are disabled for as long as it lasts. *)
Definition fire (w : world) (ev : event) : option (world * list dialog) :=
  match ev with
  | ClickAdd chosen =>
      if buttons_normal (w_gui w) then
        Some ({| w_gui := fst (add_files (w_fs w) (w_gui w) chosen);
                 w_fs := w_fs w; worker := worker w |}, [])
      else None
  | ClickClear =>
      if buttons_normal (w_gui w) then
        Some ({| w_gui := clear_files (w_gui w);
                 w_fs := w_fs w; worker := worker w |}, [])
      else None
  | ClickCreate answer =>
      if buttons_normal (w_gui w) then
        let '(g, shown, sp) := create_zip_threaded (w_gui w) answer in
        Some ({| w_gui := g; w_fs := w_fs w;
                 worker := match sp with
                           | StartThread p => Some p
                           | NoThread => worker w
                           end |}, shown)
      else None
  | SelectMethod m =>
      if decide (m ∈ methods) then
        Some ({| w_gui := set_method (w_gui w) m;
                 w_fs := w_fs w; worker := worker w |}, [])
      else None
  | WorkerRuns =>
      match worker w with
      | Some output_path =>
          let '(g, fs, shown) := create_zip (w_gui w) (w_fs w) output_path in
          Some ({| w_gui := g; w_fs := fs; worker := None |}, shown)
      | None => None
      end
  end.

Definition initial_world (fs : filesystem) : world :=
  {| w_gui := initial_gui; w_fs := fs; worker := None |}.

Inductive reachable : world -> Prop :=
  | reach_init fs : reachable (initial_world fs)
  | reach_fire w ev w' shown :
      reachable w -> fire w ev = Some (w', shown) -> reachable w'.

End CreateZip.

(** ** A small instance of the libraries, for the examples

    Run-length coding stands in for zlib and bzip2, the LZMA binding
    fails, the character database knows ASCII only, and an archive is laid
    out as its members one after the other. *)

Fixpoint rle_go (cur : byte) (n : Z) (data : bytes) : bytes :=
  match data with
  | [] => [byte_of_Z n; cur]
  | b :: data' =>
      if bool_decide (b = cur) && (n <? 255) then rle_go cur (n + 1) data'
      else byte_of_Z n :: cur :: rle_go b 1 data'
  end.

Definition rle (data : bytes) : bytes :=
  match data with
  | [] => []
  | b :: data' => rle_go b 1 data'
  end.

Definition ascii_isalnum (c : Z) : bool :=
  in_range 48 57 c || in_range 65 90 c || in_range 97 122 c.

Definition ascii_lower_char (c : Z) : Z :=
  if in_range 65 90 c then c + 32 else c.

Definition ascii_lower (s : str) : str := map ascii_lower_char s.

Definition demo_extern : Extern.
Proof.
  refine {| zlib_compress := fun data _ => Ok (rle data);
            bz2_compress := fun data _ => Ok (rle data);
            lzma_compress := fun _ _ => Raise (LibraryError "MemoryError");
            isalnum_char := ascii_isalnum;
            str_lower := ascii_lower;
            str_lower_scalar := _ |}.
  unfold ascii_lower. induction 1 as [|c s Hc _ IH]; simpl; constructor; auto.
  unfold ascii_lower_char, in_range, is_scalar in *.
  destruct (_ && _) eqn:Hr; [|exact Hc].
  apply andb_prop in Hr as [H1 H2].
  apply Z.leb_le in H1, H2. lia.
Defined.

Definition bytes_of_string (s : string) : bytes := list_byte_of_string s.

Definition demo_layout (entries : list zip_entry) : bytes :=
  flat_map (fun e => bytes_of_string (arcname e) ++ [x00] ++ payload e) entries.

Definition demo_closed (entries : list zip_entry) : bytes :=
  demo_layout entries ++ [x50; x4b; x05; x06].

Definition demo_zip : ZipFormat.
Proof.
  refine {| zip_bytes := demo_closed;
            zip_partial := demo_layout;
            zip_bytes_nonempty := _ |}.
  intros entries. unfold demo_closed.
  destruct (demo_layout entries); discriminate.
Defined.

(** A statement that holds whatever the libraries do. *)
Definition whatever_the_libraries (P : Extern -> ZipFormat -> Prop) : Prop :=
  forall (E : Extern) (F : ZipFormat), P E F.

(** ** Vocabulary of the statements *)

(** What a strict decoder may answer: scalar values only, and no failure
    other than [UnicodeDecodeError]. *)
Definition decoded_well (r : result str) : Prop :=
  match r with
  | Ok text => Forall is_scalar text
  | Raise e => e = UnicodeDecodeError
  end.

(** Two disks that differ at most in the file at [path]. *)
Definition same_except (path : string) (fs fs' : filesystem) : Prop :=
  denied fs' = denied fs /\
  forall p, p <> path -> files fs' !! p = files fs !! p.

(** Two windows with the same selection, rows, method, flag and buttons;
    the progress bar and the status label may differ. *)
Definition same_widgets (g g' : gui) : Prop :=
  files_to_zip g' = files_to_zip g /\
  tree g' = tree g /\
  compression_method g' = compression_method g /\
  is_processing g' = is_processing g /\
  buttons_normal g' = buttons_normal g.

(** A session: the events one after the other, with the message boxes
    they bring up. *)
Fixpoint fire_all `{E : Extern} `{F : ZipFormat} (w : world) (evs : list event)
  : option (world * list dialog) :=
  match evs with
  | [] => Some (w, [])
  | ev :: evs' =>
      match fire w ev with
      | Some (w', shown) =>
          match fire_all w' evs' with
          | Some (w'', shown') => Some (w'', shown ++ shown')
          | None => None
          end
      | None => None
      end
  end.

(** The member that [create_zip] writes for one file, when the file can be
    read and the compression returns. *)
Definition member_for `{E : Extern} (fs : filesystem) (method file_path : string)
  : option zip_entry :=
  match files fs !! file_path with
  | None => None
  | Some data =>
      if decide (method = "store"%string)
      then Some {| arcname := basename file_path; payload := data |}
      else
        match compress_data data method with
        | Ok (compressed_data, used_method) =>
            Some {| arcname := arc_name_for file_path used_method;
                    payload := compressed_data |}
        | Raise _ => None
        end
  end.

(** What holds of the window at every moment of a session. *)
Definition window_invariant `{E : Extern} `{F : ZipFormat} (w : world) : Prop :=
  NoDup (files_to_zip (w_gui w)) /\
  buttons_normal (w_gui w) = negb (is_processing (w_gui w)) /\
  (is_processing (w_gui w) = true -> files_to_zip (w_gui w) <> []) /\
  (is_processing (w_gui w) = true <-> is_Some (worker w)).

(** ** More vocabulary *)

(** [' '.join(text.split())], the whitespace step of [preprocess_text]. *)
Definition join_split (text : str) : str := str_join [32] (str_split text).

(** A word as [split] yields them: not empty, no separator inside. *)
Definition is_word (w : str) : Prop :=
  w <> [] /\ Forall (fun c => is_space c = false) w.

(** How many times [format_size] divides by 1024 before it prints. *)
Definition size_unit (size : Z) : nat :=
  if size <? 1024 then 0%nat
  else if size <? 1048576 then 1%nat
  else if size <? 1073741824 then 2%nat
  else if size <? 1099511627776 then 3%nat
  else 4%nat.

Fixpoint scaled (k : nat) (x : Q) : Q :=
  match k with
  | O => x
  | S k' => scaled k' (x / 1024)
  end.

Definition unit_name (k : nat) : string :=
  nth k ["B"; "KB"; "MB"; "GB"]%string "TB"%string.

(** The size of a file on disk, 0 when there is none. *)
Definition file_len (fs : filesystem) (path : string) : Z :=
  from_option len 0 (files fs !! path).

Definition sum_Z (l : list Z) : Z := foldr Z.add 0 l.

(** How [create_zip] leaves the window: status set, flag cleared, buttons
    enabled, progress bar back at 0. *)
Definition finished (g : gui) (message : status) : gui :=
  update_progress (set_processing (update_status g message) false) 0.

Fixpoint has_char (c : ascii) (s : string) : bool :=
  match s with
  | EmptyString => false
  | String c' s' => bool_decide (c' = c) || has_char c s'
  end.

(** The tree view shows the selection: one row per selected path, in the
    same order. *)
Definition rows_match (g : gui) : Prop := map row_path (tree g) = files_to_zip g.

(** * Properties *)

Lemma bind_Ok {A B : Type} (a : A) (f : A -> result B) : (Ok a ≫= f) = f a.
Proof. reflexivity. Qed.

Lemma bind_Raise {A B : Type} (e : exn) (f : A -> result B) :
  (Raise e ≫= f) = Raise e.
Proof. reflexivity. Qed.

(** ** The entropy sample *)

Lemma counter_incr_nonempty (b : byte) (c : list (byte * Z)) :
  counter_incr b c <> [].
Proof. destruct c as [|[k n] c]; simpl; [|destruct (decide _)]; discriminate. Qed.

Lemma Counter_nonempty (data : bytes) : data <> [] -> Counter data <> [].
Proof.
  unfold Counter. intros Hne.
  assert (Hfold : forall (d : bytes) c, c <> [] ->
            fold_left (fun c b => counter_incr b c) d c <> []).
  { induction d as [|b d IH]; simpl; intros c Hc; [exact Hc|].
    apply IH, counter_incr_nonempty. }
  destruct data as [|b d]; [congruence|].
  change (fold_left (fun c b => counter_incr b c) d (counter_incr b []) <> []).
  apply Hfold, counter_incr_nonempty.
Qed.

(** A quotient is a float, whatever the operands. *)
Lemma truediv_float (a b : pynum) (v : pynum) :
  truediv a b = Ok v -> exists x, v = PyFloat x.
Proof.
  unfold truediv. destruct (Qeq_bool _ _); [discriminate|].
  intros [= <-]. eauto.
Qed.

Lemma truediv_by_length (count : Z) (data : bytes) :
  data <> [] ->
  exists x, truediv (PyInt count) (PyInt (len data)) = Ok (PyFloat x).
Proof.
  intros Hne. unfold truediv. simpl.
  destruct (Qeq_bool (inject_Z (len data)) 0) eqn:Hz; [|eauto].
  apply Qeq_bool_iff in Hz. unfold Qeq, inject_Z in Hz. simpl in Hz.
  unfold len in Hz. destruct data; [congruence|]. simpl length in Hz. lia.
Qed.

(** On any non-empty sample the first round of the loop already fails:
    [probability] is a float and [bit_length] is looked up on it. *)
Lemma calculate_entropy_nonempty (data : bytes) :
  data <> [] ->
  _calculate_entropy data = Raise (AttributeError "float" "bit_length").
Proof.
  intros Hne. unfold _calculate_entropy.
  destruct data as [|b d] eqn:Hd; [congruence|]. rewrite <- Hd in *.
  pose proof (Counter_nonempty data Hne) as Hc.
  unfold values. destruct (Counter data) as [|[k n] c]; [congruence|].
  simpl. destruct (truediv_by_length n data Hne) as [x ->]. reflexivity.
Qed.

Lemma calculate_entropy_empty : _calculate_entropy [] = Ok (PyInt 0).
Proof. reflexivity. Qed.

Lemma take_nonempty {A} (n : nat) (l : list A) :
  l <> [] -> (0 < n)%nat -> take n l <> [].
Proof. destruct l, n; simpl; intros; try lia; congruence. Qed.

Lemma analyze_data_nonempty (data : bytes) :
  data <> [] -> analyze_data data = Raise (AttributeError "float" "bit_length").
Proof.
  intros Hne. unfold analyze_data.
  rewrite calculate_entropy_nonempty; [reflexivity|].
  apply take_nonempty; [exact Hne|lia].
Qed.

(** The only method the analysis ever returns. *)
Lemma analyze_data_returns (data : bytes) (m : string) :
  analyze_data data = Ok m -> data = [] /\ m = "zlib"%string.
Proof.
  destruct data as [|b d].
  - intros [= <-]. auto.
  - rewrite analyze_data_nonempty; discriminate.
Qed.

(** ** What [analyze_data] answers *)

(** C1: at the one-byte input [b'a'], shorter than 1024 bytes and with no
    signature, [analyze_data] does not return ['zlib'] nor any other of the
    four encodings: the entropy computation raises [AttributeError] and the
    exception leaves [analyze_data].  The same happens at 2048 zero bytes,
    an input of 1024 bytes or more whose entropy is as low as can be. *)
Theorem analyze_data_one_byte :
  _is_compressed (take 4096 [x61]) = false /\
  (len [x61] <? 1024) = true /\
  analyze_data [x61] = Raise (AttributeError "float" "bit_length") /\
  _is_compressed (take 4096 (replicate 2048 x00)) = false /\
  (len (replicate 2048 x00) <? 1024) = false /\
  analyze_data (replicate 2048 x00) = Raise (AttributeError "float" "bit_length").
Proof. repeat split. Qed.

(** C3: each of the six recognised signatures, given as the whole input,
    is recognised by [_is_compressed], and yet [analyze_data] does not
    return ['store'] on it: the entropy of the sample is computed first
    and that computation raises. *)
Theorem analyze_data_on_signatures :
  Forall (fun sig =>
            _is_compressed (take 4096 sig) = true /\
            analyze_data sig = Raise (AttributeError "float" "bit_length"))
         compression_signatures.
Proof. repeat constructor. Qed.

(** The outcome of [analyze_data], a method or an exception, is fixed by
    the first 4096 bytes and by the test [len(data) < 1024]. *)
Lemma analyze_data_outcome_of_sample (d1 d2 : bytes) :
  take 4096 d1 = take 4096 d2 ->
  (len d1 <? 1024) = (len d2 <? 1024) ->
  analyze_data d1 = analyze_data d2.
Proof.
  intros Hsample Hsmall. unfold analyze_data.
  rewrite Hsample, Hsmall. reflexivity.
Qed.

(** C6: the inputs [b'a' * 4096 + b'b'] and [b'a' * 4096 + b'cd'] differ,
    have the same first 4096 bytes and are both 1024 bytes long or more,
    and [analyze_data] returns a method for neither of them, so not the
    same method either: on both, the entropy of the sample raises
    [AttributeError].  No non-empty input gets a method at all, whatever
    it shares with another input. *)
Theorem analyze_data_sample_no_method :
  replicate 4096 x61 ++ [x62] <> replicate 4096 x61 ++ [x63; x64] /\
  take 4096 (replicate 4096 x61 ++ [x62])
  = take 4096 (replicate 4096 x61 ++ [x63; x64]) /\
  (len (replicate 4096 x61 ++ [x62]) <? 1024)
  = (len (replicate 4096 x61 ++ [x63; x64]) <? 1024) /\
  analyze_data (replicate 4096 x61 ++ [x62])
  = Raise (AttributeError "float" "bit_length") /\
  analyze_data (replicate 4096 x61 ++ [x63; x64])
  = Raise (AttributeError "float" "bit_length") /\
  (forall (b : byte) (d : bytes) (m : string), analyze_data (b :: d) <> Ok m).
Proof.
  split_and!.
  - intros Heq. apply (f_equal (fun l => length l)) in Heq.
    rewrite !length_app, !length_replicate in Heq. simpl in Heq. lia.
  - rewrite !take_app_le by (rewrite length_replicate; lia). reflexivity.
  - unfold len. rewrite !length_app, !length_replicate. reflexivity.
  - apply analyze_data_nonempty. destruct (replicate 4096 x61) eqn:Hr; discriminate.
  - apply analyze_data_nonempty. destruct (replicate 4096 x61) eqn:Hr; discriminate.
  - intros b d m. rewrite analyze_data_nonempty; discriminate.
Qed.

(** ** The compression driver *)

(** C7: with [method='store'], [compress_data] returns its input
    untouched, labelled ['store']; the text preprocessing is not run. *)
Theorem compress_data_store (E : Extern) (data : bytes) :
  compress_data data "store" = Ok (data, "store"%string).
Proof. reflexivity. Qed.

(** ** UTF-8 and the text preprocessing *)

Ltac mod_lia := Z.to_euclidean_division_equations; lia.

Lemma byte_val_range (b : byte) : 0 <= byte_val b <= 255.
Proof. unfold byte_val. pose proof (Byte.to_N_bounded b). lia. Qed.

Lemma in_range_spec (lo hi v : Z) : in_range lo hi v = true <-> lo <= v <= hi.
Proof. unfold in_range. rewrite andb_true_iff, !Z.leb_le. reflexivity. Qed.

Lemma decoded_well_cons (r : result str) (c : Z) :
  is_scalar c -> decoded_well r -> decoded_well (text ← r; Ok (c :: text)).
Proof. destruct r; simpl; auto. Qed.

Lemma utf8_decode_well (data : bytes) : decoded_well (utf8_decode data).
Proof.
  remember (length data) as n eqn:Hn. revert data Hn.
  induction n as [n IH] using lt_wf_ind. intros data ->.
  destruct data as [|b0 r0]; [constructor|].
  pose proof (byte_val_range b0) as R0.
  cbn [utf8_decode].
  destruct (byte_val b0 <? 128) eqn:H0.
  { apply Z.ltb_lt in H0. apply decoded_well_cons.
    - unfold is_scalar. lia.
    - eapply IH; [|reflexivity]. simpl. lia. }
  destruct (in_range 194 223 (byte_val b0)) eqn:H1.
  { apply in_range_spec in H1.
    destruct r0 as [|b1 r1]; [reflexivity|].
    destruct (in_range 128 191 (byte_val b1)) eqn:C1; [|reflexivity].
    apply in_range_spec in C1. apply decoded_well_cons.
    - unfold is_scalar, cont. mod_lia.
    - eapply IH; [|reflexivity]. simpl. lia. }
  destruct (in_range 224 239 (byte_val b0)) eqn:H2.
  { apply in_range_spec in H2.
    destruct r0 as [|b1 [|b2 r2]]; [reflexivity..|].
    destruct (_ && _) eqn:C; [|reflexivity].
    apply andb_prop in C as [C1 C2]. apply in_range_spec in C1, C2.
    apply decoded_well_cons.
    - unfold is_scalar, cont. revert C1.
      destruct (Z.eqb_spec (byte_val b0) 224) as [Ha|Ha];
        destruct (Z.eqb_spec (byte_val b0) 237) as [Hb|Hb]; intros C1; mod_lia.
    - eapply IH; [|reflexivity]. simpl. lia. }
  destruct (in_range 240 244 (byte_val b0)) eqn:H3; [|reflexivity].
  apply in_range_spec in H3.
  destruct r0 as [|b1 [|b2 [|b3 r3]]]; [reflexivity..|].
  destruct (_ && _) eqn:C; [|reflexivity].
  apply andb_prop in C as [C C3]. apply andb_prop in C as [C1 C2].
  apply in_range_spec in C1, C2, C3.
  apply decoded_well_cons.
  - unfold is_scalar, cont. revert C1.
    destruct (Z.eqb_spec (byte_val b0) 240) as [Ha|Ha];
        destruct (Z.eqb_spec (byte_val b0) 244) as [Hb|Hb]; intros C1; mod_lia.
  - eapply IH; [|reflexivity]. simpl. lia.
Qed.

Lemma utf8_encode_char_scalar (c : Z) :
  is_scalar c -> exists bs, utf8_encode_char c = Ok bs.
Proof.
  intros [Hr Hs]. unfold utf8_encode_char.
  repeat (match goal with
          | |- context [in_range ?lo ?hi c] =>
              let H := fresh "H" in
              destruct (in_range lo hi c) eqn:H;
              [apply in_range_spec in H
              |apply not_true_iff_false in H; rewrite in_range_spec in H]
          end; eauto; try lia).
Qed.

Lemma utf8_encode_scalar (text : str) :
  Forall is_scalar text -> exists bs, utf8_encode text = Ok bs.
Proof.
  induction 1 as [|c text Hc _ [rest IH]]; simpl; [eauto|].
  destruct (utf8_encode_char_scalar c Hc) as [bs ->]. rewrite IH. simpl. eauto.
Qed.

Lemma is_scalar_space : is_scalar 32.
Proof. unfold is_scalar. lia. Qed.

Lemma split_go_scalar (text word : str) :
  Forall is_scalar word -> Forall is_scalar text ->
  Forall (Forall is_scalar) (split_go word text).
Proof.
  revert word. induction text as [|c text IH]; intros word Hw Ht; simpl.
  - case_bool_decide; constructor; [|constructor].
    apply Forall_rev; exact Hw.
  - inversion Ht as [|? ? Hc Ht']; subst.
    destruct (is_space c).
    + apply Forall_app. split; [|apply IH; [constructor|exact Ht']].
      case_bool_decide; constructor; [|constructor].
      apply Forall_rev; exact Hw.
    + apply IH; [constructor; assumption|exact Ht'].
Qed.

Lemma str_join_scalar (sep : str) (words : list str) :
  Forall is_scalar sep -> Forall (Forall is_scalar) words ->
  Forall is_scalar (str_join sep words).
Proof.
  intros Hsep. induction 1 as [|w ws Hw Hws IH]; simpl; [constructor|].
  destruct ws as [|w' ws']; [exact Hw|].
  apply Forall_app. split; [exact Hw|].
  apply Forall_app. split; [exact Hsep|exact IH].
Qed.

(** [preprocess_text] always returns: undecodable input comes back as it
    is, decodable input is re-encoded. *)
Lemma preprocess_text_returns (E : Extern) (data : bytes) :
  exists out, preprocess_text data = Ok out.
Proof.
  unfold preprocess_text. pose proof (utf8_decode_well data) as Hd.
  destruct (utf8_decode data) as [text|e]; simpl in Hd.
  - apply utf8_encode_scalar.
    assert (Hj : Forall is_scalar (str_join [32] (str_split text))).
    { apply str_join_scalar; [repeat constructor; apply is_scalar_space|].
      apply split_go_scalar; [constructor|exact Hd]. }
    destruct (str_isalnum _); [apply str_lower_scalar|]; exact Hj.
  - subst e. eauto.
Qed.

Lemma preprocessed_returns (E : Extern) (data : bytes) (method : string) :
  exists data', preprocessed data method = Ok data'.
Proof.
  unfold preprocessed. destruct (_ && _); [apply preprocess_text_returns|eauto].
Qed.

(** ** [compress_data] *)

Lemma compress_data_explicit (E : Extern) (data : bytes) (method : string) :
  method <> "auto"%string ->
  compress_data data method =
    (data' ← preprocessed data method;
     match compress_guarded data' method with
     | Ok r => Ok r
     | Raise _ => Ok (data', "store"%string)
     end).
Proof.
  intros Hm. unfold compress_data. destruct (decide _); [contradiction|].
  reflexivity.
Qed.

Lemma compress_data_auto (E : Extern) (data : bytes) :
  compress_data data "auto" =
    (method ← analyze_data data; compress_data data method).
Proof.
  unfold compress_data at 1.
  destruct (decide ("auto" = "auto")%string) as [_|Hne]; [|contradiction].
  destruct (analyze_data data) as [m|e] eqn:Ha;
    [|rewrite !bind_Raise; reflexivity].
  apply analyze_data_returns in Ha as [_ ->]. rewrite !bind_Ok.
  rewrite (compress_data_explicit E data "zlib") by discriminate. reflexivity.
Qed.

(** No level can beat an empty input. *)
Lemma zlib_levels_on_empty (E : Extern) (levels : list Z) :
  match for_each (zlib_try []) levels ([], 6) with
  | Ok best => best = ([], 6)
  | Raise _ => True
  end.
Proof.
  induction levels as [|level levels IH]; simpl; [reflexivity|].
  unfold zlib_try at 2. destruct (zlib_compress [] level) as [c|e]; simpl; [|exact I].
  replace (len c <? len []) with false; [exact IH|].
  symmetry. apply Z.ltb_ge. unfold len. simpl. lia.
Qed.

(** With an explicit method [compress_data] always returns. *)
Lemma compress_data_explicit_returns (E : Extern) (data : bytes) (method : string) :
  method <> "auto"%string -> exists r, compress_data data method = Ok r.
Proof.
  intros Hm. destruct (preprocessed_returns E data method) as [data' Hp].
  rewrite (compress_data_explicit E data method Hm), Hp, bind_Ok.
  destruct (compress_guarded data' method); eauto.
Qed.

(** The label ['store'] never comes with compressed bytes: what comes with
    it is the data as it stood when the guarded block was entered. *)
Lemma compress_guarded_store_label (E : Extern) (data d : bytes) (method : string) :
  compress_guarded data method = Ok (d, "store"%string) -> d = data.
Proof.
  unfold compress_guarded.
  destruct (decide (method = "store"%string)) as [_|_];
    [intros [= <-]; reflexivity|].
  destruct (decide (method = "zlib"%string)) as [_|_].
  { destruct (for_each _ _ _) as [[best level]|err]; [|discriminate].
    rewrite !bind_Ok. destruct (_ && _); [discriminate|].
    intros [= <-]. reflexivity. }
  destruct (decide (method = "bzip2"%string)) as [_|_].
  { destruct (bz2_compress data 9) as [c|err]; [|discriminate].
    rewrite !bind_Ok. destruct (_ && _); [discriminate|].
    intros [= <-]. reflexivity. }
  destruct (decide (method = "lzma"%string)) as [_|_].
  { destruct (lzma_compress data 9) as [c|err]; [|discriminate].
    rewrite !bind_Ok. destruct (_ && _); [discriminate|].
    intros [= <-]. reflexivity. }
  rewrite bind_Ok. intros [= <-]. reflexivity.
Qed.

Lemma compress_data_store_label (E : Extern) (data d : bytes) (method : string) :
  method <> "auto"%string ->
  compress_data data method = Ok (d, "store"%string) ->
  preprocessed data method = Ok d.
Proof.
  intros Hm. rewrite (compress_data_explicit E data method Hm).
  destruct (preprocessed data method) as [data'|e]; [|discriminate].
  rewrite bind_Ok.
  destruct (compress_guarded data' method) as [[d' label]|e] eqn:Hg.
  - intros [= -> ->]. apply compress_guarded_store_label in Hg. congruence.
  - intros [= <-]. reflexivity.
Qed.

(** C2, as the code has it: with an explicit method [compress_data]
    always returns a pair, and an exception raised inside the guarded
    block is answered by the preprocessed data labelled ['store'];
    with ['auto'] the analysis runs before the guarded block, so
    [compress_data] continues with the method that [analyze_data] returns
    and raises what [analyze_data] raises. *)
Theorem compress_data_returns (E : Extern) (data : bytes) (method : string) :
  (method <> "auto"%string ->
   exists data',
     preprocessed data method = Ok data' /\
     (exists r, compress_data data method = Ok r) /\
     (forall e, compress_guarded data' method = Raise e ->
                compress_data data method = Ok (data', "store"%string))) /\
  (forall m, analyze_data data = Ok m ->
             compress_data data "auto" = compress_data data m) /\
  (forall e, analyze_data data = Raise e ->
             compress_data data "auto" = Raise e).
Proof.
  split; [|split].
  - intros Hm. destruct (preprocessed_returns E data method) as [data' Hp].
    exists data'. split; [exact Hp|].
    split; [apply compress_data_explicit_returns, Hm|].
    intros e He.
    rewrite (compress_data_explicit E data method Hm), Hp, bind_Ok, He.
    reflexivity.
  - intros m Ha. rewrite compress_data_auto, Ha. reflexivity.
  - intros e Ha. rewrite compress_data_auto, Ha. reflexivity.
Qed.

Lemma compress_data_returns_witness :
  @compress_data demo_extern (bytes_of_string "aaaaaaaaaaaa") "lzma"
  = Ok (bytes_of_string "aaaaaaaaaaaa", "store"%string).
Proof.
  destruct (compress_data_returns demo_extern
              (bytes_of_string "aaaaaaaaaaaa") "lzma") as [Hexplicit _].
  destruct (Hexplicit ltac:(discriminate)) as [data' [Hp [_ Hfallback]]].
  vm_compute in Hp. injection Hp as <-.
  apply (Hfallback (LibraryError "MemoryError")). reflexivity.
Defined.

(** C2 as stated fails: with ['auto'] and the one-byte input [b'a'] the
    exception raised during the analysis leaves [compress_data]. *)
Lemma compress_data_auto_raises :
  whatever_the_libraries (fun E _ =>
    @compress_data E [x61] "auto" = Raise (AttributeError "float" "bit_length")).
Proof. intros E F. reflexivity. Qed.

(** C4: a file holding a single space, compressed with ['zlib'], comes
    back labelled ['store'] and empty, whatever zlib answers: the bytes
    returned are the preprocessed ones, not the input. *)
Theorem compress_data_store_label_loses_input (E : Extern) :
  compress_data [x20] "zlib" = Ok ([], "store"%string) /\
  [x20] <> ([] : bytes).
Proof.
  split; [|discriminate].
  rewrite compress_data_explicit by discriminate.
  change (preprocessed [x20] "zlib") with (Ok ([] : bytes)).
  cbn [mbind result_bind]. unfold compress_guarded.
  destruct (decide ("zlib" = "store")%string) as [Hs|_]; [discriminate Hs|].
  destruct (decide ("zlib" = "zlib")%string) as [_|Hz]; [|contradiction].
  match goal with
  | |- context [for_each ?f ?levels ?start] =>
      assert (Hbest : match for_each f levels start with
                      | Ok best => best = ([], 6)
                      | Raise _ => True
                      end) by apply zlib_levels_on_empty;
      destruct (for_each f levels start) as [[best level]|e]
  end; [|reflexivity].
  injection Hbest as -> ->. reflexivity.
Qed.

(** ** The window: selection and guards *)

Lemma add_file_NoDup (fs : filesystem) (g : gui) (file : string) :
  NoDup (files_to_zip g) -> NoDup (files_to_zip (add_file fs g file).1).
Proof.
  intros Hnd. unfold add_file.
  destruct (decide (file ∈ files_to_zip g)) as [Hin|Hnotin]; [exact Hnd|].
  assert (Hnd' : NoDup (files_to_zip g ++ [file])).
  { apply NoDup_app. repeat split; [exact Hnd| |apply NoDup_singleton].
    intros x Hx Hx'. apply list_elem_of_singleton in Hx'. subst x. contradiction. }
  destruct (getsize fs file); exact Hnd'.
Qed.

Lemma add_files_NoDup (fs : filesystem) (chosen : list string) (g : gui) :
  NoDup (files_to_zip g) -> NoDup (files_to_zip (add_files fs g chosen).1).
Proof.
  revert g. induction chosen as [|file chosen IH]; intros g Hnd; [exact Hnd|].
  simpl. pose proof (add_file_NoDup fs g file Hnd) as Hstep.
  destruct (add_file fs g file) as [g' [e|]]; [exact Hstep|].
  apply IH, Hstep.
Qed.

(** [add_files] touches the selection and the rows, nothing else. *)
Lemma add_file_flags (fs : filesystem) (g : gui) (file : string) :
  let g' := (add_file fs g file).1 in
  compression_method g' = compression_method g /\
  is_processing g' = is_processing g /\
  buttons_normal g' = buttons_normal g /\
  (files_to_zip g <> [] -> files_to_zip g' <> []).
Proof.
  unfold add_file. destruct (decide _); [auto|].
  destruct (getsize fs file); simpl; repeat split; auto;
    intros _; destruct (files_to_zip g); discriminate.
Qed.

Lemma add_files_flags (fs : filesystem) (chosen : list string) (g : gui) :
  let g' := (add_files fs g chosen).1 in
  compression_method g' = compression_method g /\
  is_processing g' = is_processing g /\
  buttons_normal g' = buttons_normal g /\
  (files_to_zip g <> [] -> files_to_zip g' <> []).
Proof.
  revert g. induction chosen as [|file chosen IH]; intros g; [simpl; auto|].
  simpl. pose proof (add_file_flags fs g file) as Hstep. simpl in Hstep.
  destruct (add_file fs g file) as [g1 [e|]]; [exact Hstep|].
  specialize (IH g1). simpl in *.
  destruct Hstep as (H1 & H2 & H3 & H4), IH as (I1 & I2 & I3 & I4).
  rewrite I1, I2, I3, H1, H2, H3. repeat split; auto.
Qed.

(** When every chosen file is there to be measured, the callback runs to
    its end and the rows keep naming the selected files, in order. *)
Lemma add_files_rows (fs : filesystem) (chosen : list string) (g : gui) :
  Forall (fun f => is_Some (files fs !! f)) chosen ->
  map row_path (tree g) = files_to_zip g ->
  map row_path (tree (add_files fs g chosen).1) = files_to_zip (add_files fs g chosen).1
  /\ (add_files fs g chosen).2 = None.
Proof.
  intros Hall. revert g. induction Hall as [|file chosen [data Hf] _ IH];
    intros g Hrows; [simpl; auto|].
  simpl. unfold add_file.
  destruct (decide (file ∈ files_to_zip g)); [apply IH, Hrows|].
  unfold getsize, read_file. rewrite Hf. simpl.
  apply IH. simpl. rewrite map_app, Hrows. reflexivity.
Qed.

(** The selection after [add_files]: what was there, followed by chosen
    paths only. *)
Lemma add_files_members (fs : filesystem) (chosen : list string) (g : gui) :
  exists added,
    files_to_zip (add_files fs g chosen).1 = files_to_zip g ++ added /\
    (forall f, f ∈ added -> f ∈ chosen /\ f ∉ files_to_zip g).
Proof.
  revert g. induction chosen as [|file chosen IH]; intros g.
  { exists []. simpl. rewrite app_nil_r. split; [reflexivity|].
    intros f Hf. inversion Hf. }
  simpl. unfold add_file.
  destruct (decide (file ∈ files_to_zip g)) as [Hin|Hnotin].
  - destruct (IH g) as (added & Heq & Hadded). exists added. split; [exact Heq|].
    intros f Hf. destruct (Hadded f Hf). split; [right|]; assumption.
  - destruct (getsize fs file) as [size|e].
    + match goal with
      | |- context [add_files fs ?g1 chosen] => destruct (IH g1) as (added & Heq & Hadded)
      end.
      simpl in Heq, Hadded. exists (file :: added). split.
      * simpl. rewrite Heq, <- app_assoc. reflexivity.
      * intros f Hf. apply elem_of_cons in Hf as [->|Hf]; [split; [left|exact Hnotin]|].
        destruct (Hadded f Hf) as [Hc Hn]. split; [right; exact Hc|].
        intros Hin. apply Hn, elem_of_app. left. exact Hin.
    + exists [file]. simpl. split; [reflexivity|].
      intros f Hf. apply list_elem_of_singleton in Hf as ->.
      split; [left|exact Hnotin].
Qed.

Lemma add_files_skips_known (fs : filesystem) (chosen : list string) (g : gui) :
  Forall (fun f => f ∈ files_to_zip g) chosen -> add_files fs g chosen = (g, None).
Proof.
  induction 1 as [|f chosen Hf _ IH]; [reflexivity|].
  simpl. unfold add_file. destruct (decide _); [exact IH|contradiction].
Qed.

Lemma add_files_keeps (fs : filesystem) (chosen : list string) (g : gui) (f : string) :
  f ∈ files_to_zip g -> f ∈ files_to_zip (add_files fs g chosen).1.
Proof.
  intros Hf. destruct (add_files_members fs chosen g) as (added & -> & _).
  apply elem_of_app. left. exact Hf.
Qed.

Lemma add_files_selects (fs : filesystem) (chosen : list string) (g : gui) :
  Forall (fun f => is_Some (files fs !! f)) chosen ->
  Forall (fun f => f ∈ files_to_zip (add_files fs g chosen).1) chosen.
Proof.
  intros Hall. revert g. induction Hall as [|f chosen [data Hf] _ IH]; intros g;
    [constructor|].
  simpl. unfold add_file.
  destruct (decide (f ∈ files_to_zip g)) as [Hin|Hnotin].
  - constructor; [apply add_files_keeps, Hin|apply IH].
  - unfold getsize, read_file. rewrite Hf. simpl.
    constructor; [|apply IH].
    apply add_files_keeps. simpl. apply elem_of_app. right. left.
Qed.

(** On files that exist no round raises, so the callback runs to its end. *)
Lemma add_files_ends (fs : filesystem) (chosen : list string) (g : gui) :
  Forall (fun f => is_Some (files fs !! f)) chosen ->
  (add_files fs g chosen).2 = None.
Proof.
  intros Hall. revert g. induction Hall as [|f chosen [data Hf] _ IH]; intros g;
    [reflexivity|].
  simpl. unfold add_file.
  destruct (decide (f ∈ files_to_zip g)); [apply IH|].
  unfold getsize, read_file. rewrite Hf. simpl. apply IH.
Qed.

(** The selection after [add_files] on files that exist: each chosen path
    in turn is put at the end unless it is there already. *)
Lemma add_files_selection (fs : filesystem) (chosen : list string) (g : gui) :
  Forall (fun f => is_Some (files fs !! f)) chosen ->
  files_to_zip (add_files fs g chosen).1
  = foldl (fun sel f => if decide (f ∈ sel) then sel else sel ++ [f])
      (files_to_zip g) chosen.
Proof.
  intros Hall. revert g. induction Hall as [|f chosen [data Hf] _ IH]; intros g;
    [reflexivity|].
  simpl. unfold add_file.
  destruct (decide (f ∈ files_to_zip g)) as [Hin|Hnotin]; [apply IH|].
  unfold getsize, read_file. rewrite Hf. simpl. rewrite IH. reflexivity.
Qed.

(** Paths that are new and pairwise distinct are all appended, in the
    order of the choice, each with its row. *)
Lemma add_files_fresh (fs : filesystem) (chosen : list string) (g : gui) :
  Forall (fun f => is_Some (files fs !! f)) chosen ->
  NoDup chosen ->
  (forall f, f ∈ chosen -> f ∉ files_to_zip g) ->
  files_to_zip (add_files fs g chosen).1 = files_to_zip g ++ chosen /\
  tree (add_files fs g chosen).1
  = tree g ++ map (fun f => {| row_size := format_size (file_len fs f);
                               row_path := f |}) chosen.
Proof.
  intros Hall. revert g. induction Hall as [|f chosen [data Hf] _ IH];
    intros g Hnd Hfresh.
  { simpl. rewrite !app_nil_r. auto. }
  apply NoDup_cons in Hnd as [Hf_rest Hnd].
  simpl. unfold add_file.
  destruct (decide (f ∈ files_to_zip g)) as [Hin|_].
  { exfalso. apply (Hfresh f); [left|exact Hin]. }
  unfold getsize, read_file. rewrite Hf. simpl.
  match goal with
  | |- context [add_files fs ?g1 chosen] => destruct (IH g1) as [Hsel Hrows]
  end.
  - exact Hnd.
  - simpl. intros p Hp Hin. apply elem_of_app in Hin as [Hin|Hin].
    + apply (Hfresh p); [right; exact Hp|exact Hin].
    + apply list_elem_of_singleton in Hin as ->. contradiction.
  - rewrite Hsel, Hrows. simpl. rewrite <- !app_assoc.
    unfold file_len, bytes in *. rewrite Hf. auto.
Qed.

(** ** [create_zip]: what it leaves alone *)

Lemma same_except_refl (path : string) (fs : filesystem) : same_except path fs fs.
Proof. split; auto. Qed.

Lemma same_except_trans (path : string) (fs1 fs2 fs3 : filesystem) :
  same_except path fs1 fs2 -> same_except path fs2 fs3 -> same_except path fs1 fs3.
Proof.
  intros [Hd1 Hf1] [Hd2 Hf2]. split; [congruence|].
  intros p Hp. rewrite Hf2, Hf1; auto.
Qed.

Lemma same_except_write (path : string) (fs : filesystem) (data : bytes) :
  same_except path fs (write_file fs path data).
Proof.
  split; [reflexivity|]. intros p Hp. simpl.
  apply lookup_insert_ne. congruence.
Qed.

Lemma same_widgets_refl (g : gui) : same_widgets g g.
Proof. repeat split. Qed.

Lemma same_widgets_trans (g1 g2 g3 : gui) :
  same_widgets g1 g2 -> same_widgets g2 g3 -> same_widgets g1 g3.
Proof.
  intros (A1 & A2 & A3 & A4 & A5) (B1 & B2 & B3 & B4 & B5).
  repeat split; congruence.
Qed.

Create HintDb frame.
#[local] Hint Resolve same_except_refl same_except_write same_widgets_refl : frame.

Ltac break_match :=
  match goal with
  | |- context [match ?x with _ => _ end] => destruct x eqn:?
  | H : context [match ?x with _ => _ end] |- _ => destruct x eqn:?
  end.

Section Frame.
Context (E : Extern) (F : ZipFormat).

Lemma zip_one_frame (output_path : string) (total_files : Z)
  (st : run) (index : Z) (file_path : string) :
  let '(st', _) := zip_one output_path total_files st index file_path in
  same_widgets (run_gui st) (run_gui st') /\
  same_except output_path (run_fs st) (run_fs st').
Proof.
  unfold zip_one, add_member.
  repeat (break_match; simplify_eq); simpl;
    (split; [repeat split|auto with frame]).
Qed.

Lemma zip_loop_frame (output_path : string) (total_files : Z)
  (file_paths : list string) (index : Z) (st : run) :
  let '(st', _) := zip_loop output_path total_files file_paths index st in
  same_widgets (run_gui st) (run_gui st') /\
  same_except output_path (run_fs st) (run_fs st').
Proof.
  revert index st. induction file_paths as [|file_path rest IH]; intros index st.
  { simpl. auto with frame. }
  simpl. pose proof (zip_one_frame output_path total_files st index file_path) as H1.
  destruct (zip_one output_path total_files st index file_path) as [st1 [e|]];
    [exact H1|].
  specialize (IH (index + 1) st1).
  destruct (zip_loop output_path total_files rest (index + 1) st1) as [st2 r].
  destruct H1, IH. split.
  - eapply same_widgets_trans; eassumption.
  - eapply same_except_trans; eassumption.
Qed.

Lemma with_zipfile_frame (g : gui) (fs : filesystem) (output_path : string) :
  let '(st, _) := with_zipfile g fs output_path in
  same_widgets g (run_gui st) /\ same_except output_path fs (run_fs st).
Proof.
  unfold with_zipfile. destruct (decide _); [simpl; auto with frame|].
  match goal with
  | |- context [zip_loop ?o ?t ?l ?i ?s] =>
      pose proof (zip_loop_frame o t l i s) as Hloop;
      destruct (zip_loop o t l i s) as [st r]
  end.
  simpl in *. destruct Hloop as [Hw Hfs]. split; [exact Hw|].
  eapply same_except_trans; [apply same_except_write|].
  eapply same_except_trans; [exact Hfs|apply same_except_write].
Qed.

(** A refused path leaves the disk as it was. *)
Lemma with_zipfile_denied (g : gui) (fs : filesystem) (output_path : string) :
  output_path ∈ denied fs ->
  run_fs (with_zipfile g fs output_path).1 = fs.
Proof.
  intros Hd. unfold with_zipfile. destruct (decide _); [reflexivity|contradiction].
Qed.

(** Otherwise the path holds a closed archive when the block is left. *)
Lemma with_zipfile_closes (g : gui) (fs : filesystem) (output_path : string) :
  output_path ∉ denied fs ->
  let st := (with_zipfile g fs output_path).1 in
  files (run_fs st) !! output_path = Some (zip_bytes (run_entries st)).
Proof.
  intros Hd. unfold with_zipfile. destruct (decide _); [contradiction|].
  destruct (zip_loop _ _ _ _ _) as [st r]. simpl.
  apply lookup_insert_eq.
Qed.

Lemma create_zip_fs (g : gui) (fs : filesystem) (output_path : string) :
  (create_zip g fs output_path).1.2 = run_fs (with_zipfile g fs output_path).1.
Proof.
  unfold create_zip. destruct (with_zipfile g fs output_path) as [st r].
  repeat break_match; reflexivity.
Qed.

Lemma create_zip_widgets (g : gui) (fs : filesystem) (output_path : string) :
  let g' := (create_zip g fs output_path).1.1 in
  files_to_zip g' = files_to_zip g /\
  tree g' = tree g /\
  compression_method g' = compression_method g /\
  is_processing g' = false /\
  buttons_normal g' = true.
Proof.
  unfold create_zip.
  pose proof (with_zipfile_frame g fs output_path) as Hframe.
  destruct (with_zipfile g fs output_path) as [st r].
  destruct Hframe as [(H1 & H2 & H3 & _ & _) _].
  repeat break_match; simplify_eq; simpl; repeat split; assumption.
Qed.

Lemma create_zip_frame (g : gui) (fs : filesystem) (output_path : string) :
  same_except output_path fs (create_zip g fs output_path).1.2.
Proof.
  rewrite create_zip_fs.
  pose proof (with_zipfile_frame g fs output_path) as Hframe.
  destruct (with_zipfile g fs output_path) as [st r]. apply Hframe.
Qed.

End Frame.

(** ** Sessions *)

Section Sessions.
Context (E : Extern) (F : ZipFormat).

Lemma window_invariant_initial (fs : filesystem) :
  window_invariant (initial_world fs).
Proof.
  repeat split; simpl; try discriminate; try apply NoDup_nil_2.
  intros [p Hp]. discriminate.
Qed.

Lemma fire_NoDup (w w' : world) (ev : event) (shown : list dialog) :
  NoDup (files_to_zip (w_gui w)) ->
  fire w ev = Some (w', shown) ->
  NoDup (files_to_zip (w_gui w')).
Proof.
  intros Hnd Hfire. destruct ev as [chosen| |answer|m|]; simpl in Hfire.
  - destruct (buttons_normal (w_gui w)); simplify_eq. simpl.
    apply add_files_NoDup, Hnd.
  - destruct (buttons_normal (w_gui w)); simplify_eq. simpl. apply NoDup_nil_2.
  - destruct (buttons_normal (w_gui w)); [|discriminate].
    unfold create_zip_threaded in Hfire.
    repeat (break_match; simplify_eq); simpl; exact Hnd.
  - destruct (decide (m ∈ methods)); simplify_eq. exact Hnd.
  - destruct (worker w) as [output_path|]; [|discriminate].
    pose proof (create_zip_widgets E F (w_gui w) (w_fs w) output_path) as Hw.
    destruct (create_zip (w_gui w) (w_fs w) output_path) as [[g fs] sh].
    simplify_eq. simpl in *. destruct Hw as [-> _]. exact Hnd.
Qed.

Lemma window_invariant_preserved (w w' : world) (ev : event)
  (shown : list dialog) :
  window_invariant w ->
  fire w ev = Some (w', shown) ->
  window_invariant w'.
Proof.
  intros Hinv Hfire. split; [eapply fire_NoDup; [apply Hinv|exact Hfire]|].
  destruct Hinv as (_ & Hb & Hne & Hw).
  assert (Hidle : buttons_normal (w_gui w) = true ->
                  is_processing (w_gui w) = false).
  { rewrite Hb. destruct (is_processing (w_gui w)); [discriminate|reflexivity]. }
  destruct ev as [chosen| |answer|m|]; simpl in Hfire.
  - destruct (buttons_normal (w_gui w)) eqn:Hbn; [|discriminate].
    simplify_eq. simpl.
    destruct (add_files_flags (w_fs w) chosen (w_gui w)) as (_ & Hp & Hbt & Hk).
    rewrite Hp, Hbt, Hbn. repeat split; auto; apply Hw.
  - destruct (buttons_normal (w_gui w)) eqn:Hbn; [|discriminate].
    pose proof (Hidle eq_refl) as Hp. simplify_eq. simpl.
    repeat split; auto; try apply Hw; [rewrite Hbn; exact Hb|congruence].
  - destruct (buttons_normal (w_gui w)) eqn:Hbn; [|discriminate].
    pose proof (Hidle eq_refl) as Hp.
    unfold create_zip_threaded in Hfire. rewrite Hp in Hfire.
    destruct (bool_decide (files_to_zip (w_gui w) = [])) eqn:Hfiles.
    { simplify_eq. simpl. rewrite Hbn. repeat split; auto; apply Hw. }
    apply bool_decide_eq_false in Hfiles.
    destruct (negb (bool_decide (answer = ""%string))).
    + simplify_eq. simpl. repeat split; eauto.
    + simplify_eq. simpl. rewrite Hbn. repeat split; auto; apply Hw.
  - destruct (decide (m ∈ methods)); simplify_eq. simpl.
    repeat split; auto; apply Hw.
  - destruct (worker w) as [output_path|]; [|discriminate].
    pose proof (create_zip_widgets E F (w_gui w) (w_fs w) output_path) as Hcw.
    destruct (create_zip (w_gui w) (w_fs w) output_path) as [[g fs] sh].
    simplify_eq. simpl in *. destruct Hcw as (_ & _ & _ & -> & ->).
    repeat split; try discriminate. intros [p Hp]. discriminate.
Qed.

Lemma reachable_invariant (w : world) : reachable w -> window_invariant w.
Proof.
  induction 1 as [fs|w ev w' shown _ IH Hfire].
  - apply window_invariant_initial.
  - eapply window_invariant_preserved; eassumption.
Qed.

End Sessions.

(** ** The claims about the window *)

(** C8: [create_zip_threaded] starts the worker exactly when a file is
    selected, no run is in progress and the save dialog gave a path; with
    nothing selected it warns "No files selected!" and leaves the window as
    it is; during a run it warns "Already processing!" and leaves the
    window as it is (in a session a run in progress always has a selected
    file, so the second warning is the one shown). *)
Theorem create_zip_threaded_guards (E : Extern) (F : ZipFormat)
  (g : gui) (answer : string) :
  (files_to_zip g <> [] -> is_processing g = false -> answer <> ""%string ->
   create_zip_threaded g answer
   = (set_processing g true, [], StartThread answer)) /\
  (forall p, (create_zip_threaded g answer).2 = StartThread p ->
             files_to_zip g <> [] /\ is_processing g = false /\
             answer <> ""%string /\ p = answer) /\
  (files_to_zip g = [] ->
   create_zip_threaded g answer
   = (g, [showwarning "No files selected!"], NoThread)) /\
  (files_to_zip g <> [] -> is_processing g = true ->
   create_zip_threaded g answer
   = (g, [showwarning "Already processing!"], NoThread)) /\
  (forall w, reachable w -> w_gui w = g -> is_processing g = true ->
   create_zip_threaded g answer
   = (g, [showwarning "Already processing!"], NoThread)).
Proof.
  assert (Hbusy : files_to_zip g <> [] -> is_processing g = true ->
                  create_zip_threaded g answer
                  = (g, [showwarning "Already processing!"], NoThread)).
  { intros Hf Hp. unfold create_zip_threaded.
    rewrite bool_decide_eq_false_2 by exact Hf. rewrite Hp. reflexivity. }
  split; [|split; [|split; [|split]]].
  - intros Hf Hp Ha. unfold create_zip_threaded.
    rewrite bool_decide_eq_false_2 by exact Hf. rewrite Hp.
    rewrite bool_decide_eq_false_2 by exact Ha. reflexivity.
  - intros p. unfold create_zip_threaded.
    destruct (bool_decide (files_to_zip g = [])) eqn:Hf; [discriminate|].
    destruct (is_processing g); [discriminate|].
    destruct (bool_decide (answer = ""%string)) eqn:Ha; [discriminate|].
    simpl. intros [= <-].
    apply bool_decide_eq_false in Hf, Ha. auto.
  - intros Hf. unfold create_zip_threaded.
    rewrite bool_decide_eq_true_2 by exact Hf. reflexivity.
  - exact Hbusy.
  - intros w Hreach <- Hp. apply Hbusy; [|exact Hp].
    apply (reachable_invariant E F w Hreach), Hp.
Qed.

Lemma create_zip_threaded_guards_witness :
  let g := set_files initial_gui ["/tmp/a.txt"%string] in
  create_zip_threaded g "/tmp/out.zip"
  = (set_processing g true, [], StartThread "/tmp/out.zip")
  /\ create_zip_threaded (set_processing g true) "/tmp/other.zip"
     = (set_processing g true, [showwarning "Already processing!"], NoThread)
  /\ create_zip_threaded initial_gui "/tmp/out.zip"
     = (initial_gui, [showwarning "No files selected!"], NoThread).
Proof.
  intros g. split; [|split].
  - apply (create_zip_threaded_guards demo_extern demo_zip g "/tmp/out.zip");
      [discriminate|reflexivity|discriminate].
  - apply (create_zip_threaded_guards demo_extern demo_zip
             (set_processing g true) "/tmp/other.zip");
      [discriminate|reflexivity].
  - apply (create_zip_threaded_guards demo_extern demo_zip
             initial_gui "/tmp/out.zip"). reflexivity.
Defined.

(** C9: a round of [add_files] leaves the selection alone when the path is
    already there, and otherwise appends it, with a row that names it once
    its size is known.  On files that exist the callback runs to its end:
    every chosen path is selected afterwards, the selection is the old one
    with each chosen path put at the end unless it is there already, the
    rows keep naming the selected paths, and paths that are new and
    pairwise distinct are all appended in the order of the choice.
    Whatever the files, the selection only grows at its end, by chosen
    paths that were not in it.  [clear_files] empties the selection and
    the tree view; every operation of the window keeps the selection free
    of duplicates, so in a session it never has any. *)
Theorem files_to_zip_no_duplicates (E : Extern) (F : ZipFormat) :
  (forall fs g file, file ∈ files_to_zip g -> add_file fs g file = (g, None)) /\
  (forall fs g file size,
     file ∉ files_to_zip g -> getsize fs file = Ok size ->
     add_file fs g file
     = (set_tree (set_files g (files_to_zip g ++ [file]))
          (tree g ++ [{| row_size := format_size size; row_path := file |}]),
        None)) /\
  (forall fs g chosen,
     Forall (fun f => is_Some (files fs !! f)) chosen ->
     (add_files fs g chosen).2 = None /\
     Forall (fun f => f ∈ files_to_zip (add_files fs g chosen).1) chosen) /\
  (forall fs g chosen,
     Forall (fun f => is_Some (files fs !! f)) chosen ->
     files_to_zip (add_files fs g chosen).1
     = foldl (fun sel f => if decide (f ∈ sel) then sel else sel ++ [f])
         (files_to_zip g) chosen) /\
  (forall fs g chosen,
     Forall (fun f => is_Some (files fs !! f)) chosen ->
     NoDup chosen ->
     (forall f, f ∈ chosen -> f ∉ files_to_zip g) ->
     files_to_zip (add_files fs g chosen).1 = files_to_zip g ++ chosen /\
     tree (add_files fs g chosen).1
     = tree g ++ map (fun f => {| row_size := format_size (file_len fs f);
                                  row_path := f |}) chosen) /\
  (forall fs g chosen,
     Forall (fun f => is_Some (files fs !! f)) chosen ->
     map row_path (tree g) = files_to_zip g ->
     map row_path (tree (add_files fs g chosen).1)
     = files_to_zip (add_files fs g chosen).1) /\
  (forall fs g chosen,
     exists added,
       files_to_zip (add_files fs g chosen).1 = files_to_zip g ++ added /\
       (forall f, f ∈ added -> f ∈ chosen /\ f ∉ files_to_zip g)) /\
  (forall g, files_to_zip (clear_files g) = [] /\ tree (clear_files g) = []) /\
  (forall w ev w' shown,
     NoDup (files_to_zip (w_gui w)) -> fire w ev = Some (w', shown) ->
     NoDup (files_to_zip (w_gui w'))) /\
  (forall w, reachable w -> NoDup (files_to_zip (w_gui w))).
Proof.
  split_and!.
  - intros fs g file Hin. unfold add_file.
    destruct (decide _); [reflexivity|contradiction].
  - intros fs g file size Hnotin Hsize. unfold add_file.
    destruct (decide _); [contradiction|]. rewrite Hsize. reflexivity.
  - intros fs g chosen Hall. split.
    + apply add_files_ends, Hall.
    + apply add_files_selects, Hall.
  - intros fs g chosen. apply add_files_selection.
  - intros fs g chosen. apply add_files_fresh.
  - intros fs g chosen Hall Hrows. apply add_files_rows; assumption.
  - intros fs g chosen. apply add_files_members.
  - intros g. split; reflexivity.
  - intros w ev w' shown. apply fire_NoDup.
  - intros w Hreach. apply (reachable_invariant E F w Hreach).
Qed.

Lemma files_to_zip_no_duplicates_witness :
  let fs := {| files := {[ "/a"%string := [x61]; "/b"%string := [];
                           "/c"%string := [x62; x63] ]};
               denied := ∅ |} in
  let g := (add_files fs initial_gui ["/a"; "/b"; "/a"]%string).1 in
  files_to_zip g = ["/a"; "/b"]%string /\
  NoDup (files_to_zip g) /\
  files_to_zip (add_files fs g ["/c"%string]).1 = ["/a"; "/b"; "/c"]%string /\
  tree (add_files fs g ["/c"%string]).1
  = [ {| row_size := "1.0 B"; row_path := "/a" |};
      {| row_size := "0.0 B"; row_path := "/b" |};
      {| row_size := "2.0 B"; row_path := "/c" |} ].
Proof.
  intros fs g.
  destruct (files_to_zip_no_duplicates demo_extern demo_zip)
    as (_ & _ & _ & Hsel & Hfresh & _ & _ & _ & Hstep & _).
  assert (Hg : files_to_zip g = ["/a"; "/b"]%string).
  { unfold g. rewrite Hsel; [reflexivity|].
    repeat constructor; eexists; reflexivity. }
  split; [exact Hg|]. split.
  - apply (Hstep (initial_world fs) (ClickAdd ["/a"; "/b"; "/a"]%string)
             {| w_gui := g; w_fs := fs; worker := None |} []).
    + apply NoDup_nil_2.
    + reflexivity.
  - destruct (Hfresh fs g ["/c"%string]) as [Hfiles Hrows].
    + repeat constructor; eexists; reflexivity.
    + apply NoDup_singleton.
    + rewrite Hg. intros f Hf Hin.
      apply list_elem_of_singleton in Hf as ->.
      repeat (apply elem_of_cons in Hin as [Heq|Hin]; [discriminate Heq|]).
      inversion Hin.
    + rewrite Hfiles, Hrows, Hg. split; reflexivity.
Defined.

Section Disk.
Context (E : Extern) (F : ZipFormat).

Lemma fire_window_only (w w' : world) (ev : event) (shown : list dialog) :
  ev <> WorkerRuns -> fire w ev = Some (w', shown) -> w_fs w' = w_fs w.
Proof.
  intros Hev Hfire. destruct ev; simpl in Hfire; [| | | |contradiction];
    repeat (break_match; simplify_eq); reflexivity.
Qed.

Lemma fire_worker (w w' : world) (shown : list dialog) (output_path : string) :
  worker w = Some output_path ->
  fire w WorkerRuns = Some (w', shown) ->
  w_fs w' = (create_zip (w_gui w) (w_fs w) output_path).1.2 /\
  w_gui w' = (create_zip (w_gui w) (w_fs w) output_path).1.1.
Proof.
  intros Hw Hfire. simpl in Hfire. rewrite Hw in Hfire.
  destruct (create_zip (w_gui w) (w_fs w) output_path) as [[g fs] sh].
  simplify_eq. auto.
Qed.

Lemma fire_all_app (evs1 evs2 : list event) (w : world) :
  fire_all w (evs1 ++ evs2) =
    match fire_all w evs1 with
    | Some (w1, shown1) =>
        match fire_all w1 evs2 with
        | Some (w2, shown2) => Some (w2, shown1 ++ shown2)
        | None => None
        end
    | None => None
    end.
Proof.
  revert w. induction evs1 as [|ev evs1 IH]; intros w; simpl.
  - destruct (fire_all w evs2) as [[w2 s2]|]; reflexivity.
  - destruct (fire w ev) as [[w' s]|]; [|reflexivity].
    rewrite IH. destruct (fire_all w' evs1) as [[w1 s1]|]; [|reflexivity].
    destruct (fire_all w1 evs2) as [[w2 s2]|]; [|reflexivity].
    rewrite app_assoc. reflexivity.
Qed.

End Disk.

(** C10, as the code has it: an event of the window other than the run of
    the worker leaves the disk as it is; the run of the worker changes at
    most the file at the chosen output path, so every selected file other
    than that path keeps its content; the output path ends up holding a
    closed archive, or the disk is unchanged when the path is refused; and
    the window starts from the same state whatever is on the disk. *)
Theorem only_the_archive_is_written (E : Extern) (F : ZipFormat)
  (w w' : world) (ev : event) (shown : list dialog) :
  fire w ev = Some (w', shown) ->
  (ev <> WorkerRuns -> w_fs w' = w_fs w) /\
  (forall output_path,
     ev = WorkerRuns -> worker w = Some output_path ->
     same_except output_path (w_fs w) (w_fs w') /\
     (forall f, f ∈ files_to_zip (w_gui w) -> f <> output_path ->
                files (w_fs w') !! f = files (w_fs w) !! f) /\
     (output_path ∈ denied (w_fs w) -> w_fs w' = w_fs w) /\
     (output_path ∉ denied (w_fs w) ->
      exists entries, files (w_fs w') !! output_path = Some (zip_bytes entries))) /\
  (forall fs1 fs2, w_gui (initial_world fs1) = w_gui (initial_world fs2)).
Proof.
  intros Hfire. split; [|split].
  - intros Hev. eapply fire_window_only; eassumption.
  - intros output_path -> Hw.
    destruct (fire_worker E F w w' shown output_path Hw Hfire) as [Hfs _].
    rewrite Hfs.
    pose proof (create_zip_frame E F (w_gui w) (w_fs w) output_path) as Hframe.
    split; [exact Hframe|]. split; [|split].
    + intros f _ Hne. apply Hframe, Hne.
    + intros Hd. rewrite create_zip_fs. apply with_zipfile_denied, Hd.
    + intros Hd. rewrite create_zip_fs. eexists.
      apply with_zipfile_closes, Hd.
  - reflexivity.
Qed.

Lemma only_the_archive_is_written_witness :
  let fs := {| files := {[ "/tmp/a.txt"%string := [x61; x61; x61; x61; x61] ]};
               denied := ∅ |} in
  let w := {| w_gui := set_method
                         (set_processing
                            (set_files initial_gui ["/tmp/a.txt"%string]) true)
                         "zlib";
              w_fs := fs; worker := Some "/tmp/out.zip"%string |} in
  match @fire demo_extern demo_zip w WorkerRuns with
  | Some (w', _) =>
      files (w_fs w') !! "/tmp/a.txt"%string = Some [x61; x61; x61; x61; x61] /\
      exists entries,
        files (w_fs w') !! "/tmp/out.zip"%string = Some (demo_closed entries)
  | None => False
  end.
Proof.
  intros fs w.
  destruct (@fire demo_extern demo_zip w WorkerRuns) as [[w' shown]|] eqn:Hfire;
    [|vm_compute in Hfire; discriminate].
  destruct (only_the_archive_is_written demo_extern demo_zip w w' WorkerRuns
              shown Hfire) as (_ & Hrun & _).
  destruct (Hrun "/tmp/out.zip"%string eq_refl eq_refl)
    as (_ & Hkeep & _ & Harchive).
  split.
  - rewrite Hkeep; [reflexivity|repeat constructor|discriminate].
  - apply Harchive. simpl. apply not_elem_of_empty.
Defined.

(** C10 as stated fails: when the path chosen for the archive is one of the
    selected files, that file is overwritten (here an empty file becomes an
    archive, whatever the libraries do). *)
Lemma output_path_among_selected_files :
  whatever_the_libraries (fun E F =>
    let fs := {| files := {[ "/tmp/a.zip"%string := [] ]}; denied := ∅ |} in
    exists w shown,
      fire_all (initial_world fs)
        [ClickAdd ["/tmp/a.zip"%string]; ClickCreate "/tmp/a.zip"; WorkerRuns]
      = Some (w, shown) /\
      "/tmp/a.zip"%string ∈ files_to_zip (w_gui w) /\
      files fs !! "/tmp/a.zip"%string = Some [] /\
      files (w_fs w) !! "/tmp/a.zip"%string <> Some []).
Proof.
  intros E F fs.
  assert (Hpre : exists w2,
             fire_all (initial_world fs)
               [ClickAdd ["/tmp/a.zip"%string]; ClickCreate "/tmp/a.zip"]
             = Some (w2, []) /\
             w_fs w2 = fs /\ worker w2 = Some "/tmp/a.zip"%string /\
             files_to_zip (w_gui w2) = ["/tmp/a.zip"%string]).
  { eexists. split; [vm_compute; reflexivity|]. repeat split. }
  destruct Hpre as (w2 & Hpre & Hfs & Hworker & Hsel).
  destruct (fire w2 WorkerRuns) as [[w3 shown]|] eqn:Hfire;
    [|simpl in Hfire; rewrite Hworker in Hfire;
      destruct (create_zip _ _ _) as [[? ?] ?]; discriminate].
  exists w3, shown.
  destruct (fire_worker E F w2 w3 shown _ Hworker Hfire) as [Hfs3 Hgui3].
  split; [|split; [|split]].
  - change [ClickAdd ["/tmp/a.zip"%string]; ClickCreate "/tmp/a.zip"; WorkerRuns]
      with ([ClickAdd ["/tmp/a.zip"%string]; ClickCreate "/tmp/a.zip"]
              ++ [WorkerRuns]).
    rewrite fire_all_app, Hpre. cbn [fire_all]. rewrite Hfire.
    rewrite app_nil_r. reflexivity.
  - rewrite Hgui3.
    destruct (create_zip_widgets E F (w_gui w2) (w_fs w2) "/tmp/a.zip")
      as [-> _].
    rewrite Hsel. left.
  - reflexivity.
  - rewrite Hfs3, create_zip_fs, Hfs.
    rewrite with_zipfile_closes by apply not_elem_of_empty.
    intros [= Hz]. exact (zip_bytes_nonempty _ Hz).
Qed.

(** ** The archive, when nothing goes wrong *)

Section Members.
Context (E : Extern) (F : ZipFormat).

Lemma member_for_same (out : string) (fs fs' : filesystem) (m f : string) :
  same_except out fs fs' -> f <> out -> member_for fs' m f = member_for fs m f.
Proof.
  intros [_ Hsame] Hne. unfold member_for. rewrite (Hsame f Hne). reflexivity.
Qed.

Lemma truediv_nonzero (a b : Z) :
  b <> 0 -> exists v, truediv (PyInt a) (PyInt b) = Ok v.
Proof.
  intros Hb. unfold truediv. simpl.
  destruct (Qeq_bool (inject_Z b) 0) eqn:Hz; [|eauto].
  apply Qeq_bool_iff in Hz. unfold Qeq, inject_Z in Hz. simpl in Hz. lia.
Qed.

Lemma zip_one_member (output_path : string) (total_files : Z) (st : run)
  (index : Z) (file_path : string) :
  total_files <> 0 ->
  file_path <> output_path ->
  compression_method (run_gui st) <> "auto"%string ->
  is_Some (files (run_fs st) !! file_path) ->
  exists e st',
    member_for (run_fs st) (compression_method (run_gui st)) file_path = Some e /\
    zip_one output_path total_files st index file_path = (st', None) /\
    run_entries st' = run_entries st ++ [e].
Proof.
  intros Htotal Hne Hm [data Hdata].
  destruct (truediv_nonzero index total_files Htotal) as [fraction Hdiv].
  unfold zip_one, member_for, read_file. rewrite Hdata. simpl compression_method.
  destruct (decide (compression_method (run_gui st) = "store"%string)) as [Hs|Hs].
  - rewrite bool_decide_eq_true_2 by exact Hs. simpl negb. cbv iota.
    unfold getsize, read_file, add_member. simpl.
    rewrite lookup_insert_ne by congruence. rewrite Hdata. simpl.
    rewrite Hdiv. eexists _, _. split; [reflexivity|]. split; reflexivity.
  - rewrite bool_decide_eq_false_2 by exact Hs. simpl negb. cbv iota.
    destruct (compress_data_explicit_returns E data _ Hm) as [[cd used] Hc].
    rewrite Hc. rewrite Hdiv. eexists _, _. split; [reflexivity|].
    split; reflexivity.
Qed.

Lemma zip_loop_members (output_path : string) (total_files : Z)
  (fs0 : filesystem) (m : string) (file_paths : list string) :
  total_files <> 0 ->
  m <> "auto"%string ->
  Forall (fun f => f <> output_path /\ is_Some (files fs0 !! f)) file_paths ->
  forall (index : Z) (st : run),
    compression_method (run_gui st) = m ->
    same_except output_path fs0 (run_fs st) ->
    exists entries st',
      Forall2 (fun f e => member_for fs0 m f = Some e) file_paths entries /\
      zip_loop output_path total_files file_paths index st = (st', None) /\
      run_entries st' = run_entries st ++ entries.
Proof.
  intros Htotal Hm Hall.
  induction Hall as [|f rest [Hne Hthere] _ IH]; intros index st Hmethod Hsame.
  { exists [], st. rewrite app_nil_r. repeat split. constructor. }
  assert (Hthere' : is_Some (files (run_fs st) !! f)).
  { destruct Hsame as [_ Hsame]. rewrite (Hsame f Hne). exact Hthere. }
  destruct (zip_one_member output_path total_files st index f Htotal Hne
              ltac:(rewrite Hmethod; exact Hm) Hthere')
    as (e & st1 & He & Hone & Hentries).
  pose proof (zip_one_frame E F output_path total_files st index f) as Hframe.
  rewrite Hone in Hframe. destruct Hframe as [(_ & _ & Hm1 & _) Hfs1].
  destruct (IH (index + 1) st1) as (entries & st' & Hrest & Hloop & Hentries').
  { rewrite Hm1. exact Hmethod. }
  { eapply same_except_trans; eassumption. }
  exists (e :: entries), st'. split; [|split].
  - constructor; [|exact Hrest].
    rewrite <- (member_for_same output_path fs0 (run_fs st) m f Hsame Hne).
    rewrite <- Hmethod. exact He.
  - simpl. rewrite Hone. exact Hloop.
  - rewrite Hentries', Hentries, <- app_assoc. reflexivity.
Qed.

(** With an explicit method, readable files and an output path that is
    accepted and is not itself selected, the archive holds one member per
    selected file, in the order of the selection, each as [member_for]
    describes it. *)
Lemma create_zip_members (g : gui) (fs : filesystem) (output_path : string) :
  output_path ∉ denied fs ->
  output_path ∉ files_to_zip g ->
  compression_method g <> "auto"%string ->
  Forall (fun f => is_Some (files fs !! f)) (files_to_zip g) ->
  exists entries,
    Forall2 (fun f e => member_for fs (compression_method g) f = Some e)
      (files_to_zip g) entries /\
    files (create_zip g fs output_path).1.2 !! output_path
    = Some (zip_bytes entries).
Proof.
  intros Hd Hout Hm Hall.
  rewrite create_zip_fs, with_zipfile_closes by exact Hd.
  unfold with_zipfile. destruct (decide _) as [|_]; [contradiction|].
  destruct (files_to_zip g) as [|f0 rest] eqn:Hsel.
  { exists []. split; [constructor|reflexivity]. }
  rewrite <- Hsel in *.
  match goal with
  | |- context [zip_loop ?o ?t ?l ?i ?s] =>
      destruct (zip_loop_members o t fs (compression_method g) l) with (index := i) (st := s)
        as (entries & st' & Hmembers & Hloop & Hentries)
  end.
  - rewrite Hsel. unfold len. simpl. lia.
  - exact Hm.
  - apply Forall_forall. intros f Hf. split.
    + intros ->. contradiction.
    + rewrite Forall_forall in Hall. apply Hall, Hf.
  - reflexivity.
  - apply same_except_write.
  - exists entries. split; [exact Hmembers|].
    rewrite Hloop. simpl. rewrite Hentries. reflexivity.
Qed.

End Members.

(** C5: one file holding the single byte [b'a'] is selected, the method is
    left at its default ['auto'] and an output path is chosen.  The worker
    ends with an error box, and the archive on disk has no member at all:
    the exception raised by the analysis leaves [compress_data], ends the
    loop of [create_zip] and the archive is closed empty. *)
Theorem create_zip_auto_session (E : Extern) (F : ZipFormat) :
  let fs := {| files := {[ "/tmp/a.txt"%string := [x61] ]}; denied := ∅ |} in
  match fire_all (initial_world fs)
          [ClickAdd ["/tmp/a.txt"%string]; ClickCreate "/tmp/out.zip"; WorkerRuns]
  with
  | Some (w, shown) =>
      files_to_zip (w_gui w) = ["/tmp/a.txt"%string] /\
      compression_method (w_gui w) = "auto"%string /\
      shown = [showerror (AttributeError "float" "bit_length")] /\
      status_label (w_gui w) = Failed (AttributeError "float" "bit_length") /\
      files (w_fs w) !! "/tmp/out.zip"%string = Some (zip_bytes [])
  | None => False
  end.
Proof. intros fs. vm_compute. repeat split. Qed.

(** * Further properties of the code *)

(** ** The entropy sample and the signature test *)

(** X1: [_calculate_entropy] returns the integer 0 on the empty sample and
    raises [AttributeError] on every other one: the first round of its
    loop looks [bit_length] up on a float. *)
Theorem calculate_entropy_outcome (data : bytes) :
  _calculate_entropy data
  = if decide (data = []) then Ok (PyInt 0)
    else Raise (AttributeError "float" "bit_length").
Proof.
  destruct (decide (data = [])) as [->|Hne]; [reflexivity|].
  apply calculate_entropy_nonempty, Hne.
Qed.

(** X2: [analyze_data] answers ['zlib'] on the empty input and raises
    [AttributeError] on every other input, signature or not, short or
    long; it never answers ['store'], ['bzip2'] or ['lzma']. *)
Theorem analyze_data_outcome (data : bytes) :
  analyze_data data
  = if decide (data = []) then Ok "zlib"%string
    else Raise (AttributeError "float" "bit_length").
Proof.
  destruct (decide (data = [])) as [->|Hne]; [reflexivity|].
  apply analyze_data_nonempty, Hne.
Qed.

Lemma startswith_take (sig data : bytes) (n : nat) :
  (length sig <= n)%nat -> startswith (take n data) sig = startswith data sig.
Proof.
  revert data n. induction sig as [|s sig IH]; intros data n Hn.
  - destruct data, n; reflexivity.
  - destruct n as [|n]; [simpl in Hn; lia|].
    destruct data as [|d data]; [reflexivity|]. simpl.
    rewrite IH by (simpl in Hn; lia). reflexivity.
Qed.

Lemma startswith_prefix (sig data : bytes) :
  startswith data sig = true <-> exists rest, data = sig ++ rest.
Proof.
  revert data. induction sig as [|s sig IH]; intros data.
  - split; [intros _; exists data; reflexivity|intros _; destruct data; reflexivity].
  - destruct data as [|d data].
    + split; [discriminate|intros [rest Hrest]; discriminate].
    + simpl. rewrite andb_true_iff, bool_decide_eq_true, IH. split.
      * intros [-> [rest ->]]. exists rest. reflexivity.
      * intros [rest [= -> ->]]. split; [reflexivity|eauto].
Qed.

(** X3: the signature test reads at most the first five bytes, so it
    answers the same on any prefix of five bytes or more as on the whole
    input; cutting the sample to 4096 bytes changes nothing. *)
Theorem is_compressed_prefix (data : bytes) (n : nat) :
  (5 <= n)%nat -> _is_compressed (take n data) = _is_compressed data.
Proof.
  intros Hn. unfold _is_compressed, compression_signatures. simpl existsb.
  rewrite !startswith_take by (simpl; lia). reflexivity.
Qed.

Lemma is_compressed_prefix_witness :
  _is_compressed (take 4096 (replicate 5000 x42))
  = _is_compressed (replicate 5000 x42)
  /\ _is_compressed (take 5 [x89; x50; x4e; x47; x0d; x0a; x1a; x0a])
     = _is_compressed [x89; x50; x4e; x47; x0d; x0a; x1a; x0a].
Proof.
  split; apply is_compressed_prefix; lia.
Defined.

(** X4: [_is_compressed] answers [True] exactly on the inputs that begin
    with one of the six signatures; in particular it answers [False] on
    the empty input and on every one-byte input. *)
Theorem is_compressed_iff (data : bytes) :
  (_is_compressed data = true <->
   exists sig rest, sig ∈ compression_signatures /\ data = sig ++ rest) /\
  ((length data < 2)%nat -> _is_compressed data = false).
Proof.
  split.
  - unfold _is_compressed. rewrite existsb_exists. split.
    + intros (sig & Hin & Hs). apply startswith_prefix in Hs as [rest ->].
      exists sig, rest. split; [apply list_elem_of_In, Hin|reflexivity].
    + intros (sig & rest & Hin & ->). exists sig.
      split; [apply list_elem_of_In, Hin|].
      apply startswith_prefix. eauto.
  - intros Hlen. destruct data as [|b [|b' data]]; [reflexivity| |simpl in Hlen; lia].
    unfold _is_compressed, compression_signatures. simpl.
    rewrite !andb_false_r. reflexivity.
Qed.

Lemma is_compressed_iff_witness :
  _is_compressed [x1f; x8b; x08; x00] = true /\ _is_compressed [x1f] = false.
Proof.
  split.
  - apply (is_compressed_iff [x1f; x8b; x08; x00]).
    exists [x1f; x8b], [x08; x00]. split; [|reflexivity].
    unfold compression_signatures. apply elem_of_cons. right. left.
  - apply (is_compressed_iff [x1f]). simpl. lia.
Defined.

(** ** UTF-8 there and back *)

Lemma byte_val_of_Z (v : Z) : 0 <= v <= 255 -> byte_val (byte_of_Z v) = v.
Proof.
  intros Hv. unfold byte_val, byte_of_Z.
  pose proof (Byte.to_of_N_option_map (Z.to_N v)) as Hopt.
  replace (Z.to_N v <=? 255)%N with true in Hopt
    by (symmetry; apply N.leb_le; lia).
  destruct (Byte.of_N (Z.to_N v)) as [b|]; [|discriminate].
  simpl in Hopt. injection Hopt as ->. lia.
Qed.

Lemma byte_of_Z_val (b : byte) : byte_of_Z (byte_val b) = b.
Proof.
  unfold byte_val, byte_of_Z. rewrite N2Z.id, Byte.of_to_N. reflexivity.
Qed.

Lemma in_range_true (lo hi v : Z) : lo <= v <= hi -> in_range lo hi v = true.
Proof. apply in_range_spec. Qed.

Lemma in_range_false (lo hi v : Z) : ~ (lo <= v <= hi) -> in_range lo hi v = false.
Proof. rewrite <- in_range_spec. apply not_true_is_false. Qed.

(** One character, encoded, decodes to itself in front of what follows. *)
Lemma utf8_decode_encoded_char (c : Z) (bs rest : bytes) :
  utf8_encode_char c = Ok bs ->
  utf8_decode (bs ++ rest) = (text ← utf8_decode rest; Ok (c :: text)).
Proof.
  unfold utf8_encode_char.
  destruct (in_range 0 127 c) eqn:H1.
  { apply in_range_spec in H1. intros [= <-]. cbn [app utf8_decode].
    rewrite byte_val_of_Z by lia.
    replace (c <? 128) with true by (symmetry; apply Z.ltb_lt; lia).
    reflexivity. }
  apply not_true_iff_false in H1. rewrite in_range_spec in H1.
  destruct (in_range 128 2047 c) eqn:H2.
  { apply in_range_spec in H2. intros [= <-]. cbn [app utf8_decode].
    rewrite !byte_val_of_Z by mod_lia. unfold cont.
    rewrite !byte_val_of_Z by mod_lia.
    replace (192 + c / 64 <? 128) with false by (symmetry; apply Z.ltb_ge; mod_lia).
    rewrite (in_range_true 194 223) by mod_lia.
    rewrite (in_range_true 128 191) by mod_lia.
    replace ((192 + c / 64) mod 32 * 64 + (128 + c mod 64) mod 64) with c by mod_lia.
    reflexivity. }
  apply not_true_iff_false in H2. rewrite in_range_spec in H2.
  destruct (in_range 55296 57343 c) eqn:H3; [discriminate|].
  apply not_true_iff_false in H3. rewrite in_range_spec in H3.
  destruct (in_range 2048 65535 c) eqn:H4.
  { apply in_range_spec in H4. intros [= <-]. cbn [app utf8_decode].
    unfold cont. rewrite !byte_val_of_Z by mod_lia.
    replace (224 + c / 4096 <? 128) with false by (symmetry; apply Z.ltb_ge; mod_lia).
    rewrite (in_range_false 194 223) by mod_lia.
    rewrite (in_range_true 224 239) by mod_lia.
    destruct (Z.eqb_spec (224 + c / 4096) 224) as [Ha|Ha];
      destruct (Z.eqb_spec (224 + c / 4096) 237) as [Hb|Hb];
      (rewrite (in_range_true _ _ (128 + c / 64 mod 64)) by mod_lia);
      rewrite (in_range_true 128 191) by mod_lia; cbn [andb];
      (replace ((224 + c / 4096) mod 16 * 4096 + (128 + c / 64 mod 64) mod 64 * 64
                + (128 + c mod 64) mod 64) with c by mod_lia);
      reflexivity. }
  apply not_true_iff_false in H4. rewrite in_range_spec in H4.
  destruct (in_range 65536 1114111 c) eqn:H5; [|discriminate].
  apply in_range_spec in H5. intros [= <-]. cbn [app utf8_decode].
  unfold cont. rewrite !byte_val_of_Z by mod_lia.
  replace (240 + c / 262144 <? 128) with false by (symmetry; apply Z.ltb_ge; mod_lia).
  rewrite (in_range_false 194 223) by mod_lia.
  rewrite (in_range_false 224 239) by mod_lia.
  rewrite (in_range_true 240 244) by mod_lia.
  destruct (Z.eqb_spec (240 + c / 262144) 240) as [Ha|Ha];
    destruct (Z.eqb_spec (240 + c / 262144) 244) as [Hb|Hb];
    (rewrite (in_range_true _ _ (128 + c / 4096 mod 64)) by mod_lia);
    rewrite !(in_range_true 128 191) by mod_lia; cbn [andb];
    (replace ((240 + c / 262144) mod 8 * 262144
              + (128 + c / 4096 mod 64) mod 64 * 4096
              + (128 + c / 64 mod 64) mod 64 * 64
              + (128 + c mod 64) mod 64) with c by mod_lia);
    reflexivity.
Qed.

Lemma utf8_decode_encode (text : str) (bs : bytes) :
  utf8_encode text = Ok bs -> utf8_decode bs = Ok text.
Proof.
  revert bs. induction text as [|c text IH]; intros bs; simpl.
  - intros [= <-]. reflexivity.
  - destruct (utf8_encode_char c) as [cs|e] eqn:Hc; [|discriminate].
    rewrite bind_Ok. destruct (utf8_encode text) as [rest|e]; [|discriminate].
    rewrite bind_Ok. intros [= <-].
    rewrite (utf8_decode_encoded_char c cs rest Hc), (IH rest eq_refl).
    reflexivity.
Qed.

Lemma utf8_encode_cons (c : Z) (text : str) (cs rest : bytes) :
  utf8_encode_char c = Ok cs -> utf8_encode text = Ok rest ->
  utf8_encode (c :: text) = Ok (cs ++ rest).
Proof. intros Hc Ht. simpl. rewrite Hc, bind_Ok, Ht, bind_Ok. reflexivity. Qed.

Lemma bind_cons_inv (r : result str) (c : Z) (text : str) :
  (t ← r; Ok (c :: t)) = Ok text -> exists t, r = Ok t /\ text = c :: t.
Proof. destruct r as [t|e]; [|discriminate]. intros [= <-]. eauto. Qed.

Lemma utf8_encode_decode (data : bytes) (text : str) :
  utf8_decode data = Ok text -> utf8_encode text = Ok data.
Proof.
  remember (length data) as n eqn:Hn. revert data text Hn.
  induction n as [n IH] using lt_wf_ind. intros data text ->.
  destruct data as [|b0 r0]; [intros [= <-]; reflexivity|].
  pose proof (byte_val_range b0) as R0.
  cbn [utf8_decode].
  destruct (byte_val b0 <? 128) eqn:H0.
  { apply Z.ltb_lt in H0. intros Hd.
    apply bind_cons_inv in Hd as (t & Hr & ->).
    apply (utf8_encode_cons _ _ [b0] r0).
    - unfold utf8_encode_char. rewrite in_range_true by lia.
      rewrite byte_of_Z_val. reflexivity.
    - eapply IH; [|reflexivity|exact Hr]. simpl. lia. }
  apply Z.ltb_ge in H0.
  destruct (in_range 194 223 (byte_val b0)) eqn:H1.
  { apply in_range_spec in H1.
    destruct r0 as [|b1 r1]; [discriminate|].
    destruct (in_range 128 191 (byte_val b1)) eqn:C1; [|discriminate].
    apply in_range_spec in C1. intros Hd.
    apply bind_cons_inv in Hd as (t & Hr & ->).
    apply (utf8_encode_cons _ _ [b0; b1] r1).
    - unfold utf8_encode_char, cont.
      rewrite in_range_false by mod_lia. rewrite in_range_true by mod_lia.
      replace (192 + (byte_val b0 mod 32 * 64 + byte_val b1 mod 64) / 64)
        with (byte_val b0) by mod_lia.
      replace (128 + (byte_val b0 mod 32 * 64 + byte_val b1 mod 64) mod 64)
        with (byte_val b1) by mod_lia.
      rewrite !byte_of_Z_val. reflexivity.
    - eapply IH; [|reflexivity|exact Hr]. simpl. lia. }
  apply not_true_iff_false in H1. rewrite in_range_spec in H1.
  destruct (in_range 224 239 (byte_val b0)) eqn:H2.
  { apply in_range_spec in H2.
    destruct r0 as [|b1 [|b2 r2]]; [discriminate..|].
    pose proof (byte_val_range b1) as R1.
    destruct (_ && _) eqn:C; [|discriminate].
    apply andb_prop in C as [C1 C2]. apply in_range_spec in C1, C2.
    intros Hd. apply bind_cons_inv in Hd as (t & Hr & ->).
    apply (utf8_encode_cons _ _ [b0; b1; b2] r2).
    - unfold utf8_encode_char, cont. revert C1.
      destruct (Z.eqb_spec (byte_val b0) 224) as [Ha|Ha];
        destruct (Z.eqb_spec (byte_val b0) 237) as [Hb|Hb]; intros C1;
        rewrite (in_range_false 0 127) by mod_lia;
        rewrite (in_range_false 128 2047) by mod_lia;
        rewrite (in_range_false 55296 57343) by mod_lia;
        rewrite (in_range_true 2048 65535) by mod_lia;
        (replace (224 + (byte_val b0 mod 16 * 4096 + byte_val b1 mod 64 * 64
                         + byte_val b2 mod 64) / 4096)
           with (byte_val b0) by mod_lia);
        (replace (128 + (byte_val b0 mod 16 * 4096 + byte_val b1 mod 64 * 64
                         + byte_val b2 mod 64) / 64 mod 64)
           with (byte_val b1) by mod_lia);
        (replace (128 + (byte_val b0 mod 16 * 4096 + byte_val b1 mod 64 * 64
                         + byte_val b2 mod 64) mod 64)
           with (byte_val b2) by mod_lia);
        rewrite !byte_of_Z_val; reflexivity.
    - eapply IH; [|reflexivity|exact Hr]. simpl. lia. }
  apply not_true_iff_false in H2. rewrite in_range_spec in H2.
  destruct (in_range 240 244 (byte_val b0)) eqn:H3; [|discriminate].
  apply in_range_spec in H3.
  destruct r0 as [|b1 [|b2 [|b3 r3]]]; [discriminate..|].
  pose proof (byte_val_range b1) as R1.
  destruct (_ && _) eqn:C; [|discriminate].
  apply andb_prop in C as [C C3]. apply andb_prop in C as [C1 C2].
  apply in_range_spec in C1, C2, C3.
  intros Hd. apply bind_cons_inv in Hd as (t & Hr & ->).
  apply (utf8_encode_cons _ _ [b0; b1; b2; b3] r3).
  - unfold utf8_encode_char, cont. revert C1.
    destruct (Z.eqb_spec (byte_val b0) 240) as [Ha|Ha];
      destruct (Z.eqb_spec (byte_val b0) 244) as [Hb|Hb]; intros C1;
      rewrite (in_range_false 0 127) by mod_lia;
      rewrite (in_range_false 128 2047) by mod_lia;
      rewrite (in_range_false 55296 57343) by mod_lia;
      rewrite (in_range_false 2048 65535) by mod_lia;
      rewrite (in_range_true 65536 1114111) by mod_lia;
      (replace (240 + (byte_val b0 mod 8 * 262144 + byte_val b1 mod 64 * 4096
                       + byte_val b2 mod 64 * 64 + byte_val b3 mod 64) / 262144)
         with (byte_val b0) by mod_lia);
      (replace (128 + (byte_val b0 mod 8 * 262144 + byte_val b1 mod 64 * 4096
                       + byte_val b2 mod 64 * 64 + byte_val b3 mod 64) / 4096 mod 64)
         with (byte_val b1) by mod_lia);
      (replace (128 + (byte_val b0 mod 8 * 262144 + byte_val b1 mod 64 * 4096
                       + byte_val b2 mod 64 * 64 + byte_val b3 mod 64) / 64 mod 64)
         with (byte_val b2) by mod_lia);
      (replace (128 + (byte_val b0 mod 8 * 262144 + byte_val b1 mod 64 * 4096
                       + byte_val b2 mod 64 * 64 + byte_val b3 mod 64) mod 64)
         with (byte_val b3) by mod_lia);
      rewrite !byte_of_Z_val; reflexivity.
  - eapply IH; [|reflexivity|exact Hr]. simpl. lia.
Qed.

(** ** The whitespace step *)

Lemma split_go_words (text word : str) :
  Forall (fun c => is_space c = false) word ->
  Forall is_word (split_go word text).
Proof.
  assert (Hflush : forall word, Forall (fun c => is_space c = false) word ->
            Forall is_word (if bool_decide (word = []) then [] else [rev word])).
  { intros w Hw. case_bool_decide as Hne; constructor; [|constructor].
    split; [|apply Forall_rev, Hw].
    intros Hrev. apply Hne. apply (f_equal (@rev Z)) in Hrev.
    rewrite rev_involutive in Hrev. exact Hrev. }
  revert word. induction text as [|c text IH]; intros word Hw; simpl.
  - apply Hflush, Hw.
  - destruct (is_space c) eqn:Hc.
    + apply Forall_app. split; [apply Hflush, Hw|apply IH; constructor].
    + apply IH. constructor; assumption.
Qed.

Lemma split_go_app_word (w acc rest : str) :
  Forall (fun c => is_space c = false) w ->
  split_go acc (w ++ rest) = split_go (rev w ++ acc) rest.
Proof.
  intros Hw. revert acc. induction Hw as [|c w Hc _ IH]; intros acc; [reflexivity|].
  simpl. rewrite Hc, IH, <- app_assoc. reflexivity.
Qed.

Lemma split_join (words : list str) :
  Forall is_word words -> str_split (str_join [32] words) = words.
Proof.
  unfold str_split. induction 1 as [|w ws [Hne Hw] Hws IH]; [reflexivity|].
  assert (Hrev : bool_decide (rev w ++ [] = []) = false).
  { apply bool_decide_eq_false. rewrite app_nil_r. intros Hrev.
    apply Hne. apply (f_equal (@rev Z)) in Hrev.
    rewrite rev_involutive in Hrev. exact Hrev. }
  destruct ws as [|w' ws].
  - change (str_join [32] [w]) with w.
    rewrite <- (app_nil_r w) at 1.
    rewrite (split_go_app_word w [] [] Hw).
    change (split_go (rev w ++ []) [])
      with (if bool_decide (rev w ++ [] = []) then [] else [rev (rev w ++ [])]).
    rewrite Hrev, app_nil_r, rev_involutive. reflexivity.
  - change (str_join [32] (w :: w' :: ws))
      with (w ++ 32 :: str_join [32] (w' :: ws)).
    rewrite (split_go_app_word w [] _ Hw).
    change (split_go (rev w ++ []) (32 :: str_join [32] (w' :: ws)))
      with ((if bool_decide (rev w ++ [] = []) then [] else [rev (rev w ++ [])])
              ++ split_go [] (str_join [32] (w' :: ws))).
    rewrite Hrev, IH, app_nil_r, rev_involutive. reflexivity.
Qed.

Lemma join_split_idempotent (text : str) :
  join_split (join_split text) = join_split text.
Proof.
  unfold join_split. rewrite split_join; [reflexivity|].
  apply split_go_words. constructor.
Qed.

Lemma split_spaces (text : str) :
  Forall (fun c => is_space c = true) text -> str_split text = [].
Proof.
  unfold str_split. induction 1 as [|c text Hc _ IH]; [reflexivity|].
  simpl. rewrite Hc. exact IH.
Qed.

Lemma join_split_scalar (text : str) :
  Forall is_scalar text -> Forall is_scalar (join_split text).
Proof.
  intros Ht. apply str_join_scalar; [repeat constructor; apply is_scalar_space|].
  apply split_go_scalar; [constructor|exact Ht].
Qed.

(** ** [preprocess_text] *)

(** X5: [preprocess_text] never raises, whatever the bytes and whatever
    the character database; bytes that are not valid UTF-8 come back
    exactly as they were. *)
Theorem preprocess_text_never_raises (E : Extern) (data : bytes) :
  (exists out, preprocess_text data = Ok out) /\
  (forall e, utf8_decode data = Raise e -> preprocess_text data = Ok data).
Proof.
  split; [apply preprocess_text_returns|].
  intros e He. pose proof (utf8_decode_well data) as Hwell.
  unfold preprocess_text. rewrite He in *. simpl in Hwell. subst e. reflexivity.
Qed.

Lemma preprocess_text_never_raises_witness :
  @preprocess_text demo_extern [x48; xff; x20; x20; x69]
  = Ok [x48; xff; x20; x20; x69].
Proof.
  apply (preprocess_text_never_raises demo_extern [x48; xff; x20; x20; x69])
    with (e := UnicodeDecodeError).
  reflexivity.
Defined.

(** X6: text made of whitespace only (spaces, tabs, line ends, any
    character [str.split] takes for a separator) is preprocessed to the
    empty byte string. *)
Theorem preprocess_text_whitespace_only (E : Extern) (data : bytes) (text : str) :
  utf8_decode data = Ok text ->
  Forall (fun c => is_space c = true) text ->
  preprocess_text data = Ok [].
Proof.
  intros Hd Hs. unfold preprocess_text. rewrite Hd.
  rewrite (split_spaces text Hs). reflexivity.
Qed.

Lemma preprocess_text_whitespace_only_witness :
  @preprocess_text demo_extern [x20; x0a; x09; xc2; xa0] = Ok [].
Proof.
  apply (preprocess_text_whitespace_only demo_extern _ [32; 10; 9; 160]).
  - reflexivity.
  - repeat constructor.
Defined.

(** X7: valid UTF-8 text that has no whitespace to squeeze (single spaces
    between words, none at either end) and is not purely alphanumeric is
    returned byte for byte. *)
Theorem preprocess_text_fixed (E : Extern) (data : bytes) (text : str) :
  utf8_decode data = Ok text ->
  join_split text = text ->
  str_isalnum text = false ->
  preprocess_text data = Ok data.
Proof.
  intros Hd Hj Ha. unfold preprocess_text. rewrite Hd.
  change (str_join [32] (str_split text)) with (join_split text).
  rewrite Hj, Ha. apply utf8_encode_decode, Hd.
Qed.

Lemma preprocess_text_fixed_witness :
  @preprocess_text demo_extern (bytes_of_string "Hello, World")
  = Ok (bytes_of_string "Hello, World").
Proof.
  apply (preprocess_text_fixed demo_extern _
           [72; 101; 108; 108; 111; 44; 32; 87; 111; 114; 108; 100]);
    reflexivity.
Defined.

(** X8: when the text, once its whitespace is squeezed, is not purely
    alphanumeric, [preprocess_text] returns the UTF-8 encoding of the
    squeezed text, and preprocessing that result again changes nothing. *)
Theorem preprocess_text_idempotent (E : Extern) (data : bytes) (text : str) :
  utf8_decode data = Ok text ->
  str_isalnum (join_split text) = false ->
  exists out,
    preprocess_text data = Ok out /\
    utf8_decode out = Ok (join_split text) /\
    preprocess_text out = Ok out.
Proof.
  intros Hd Ha.
  pose proof (utf8_decode_well data) as Hwell. rewrite Hd in Hwell. simpl in Hwell.
  destruct (utf8_encode_scalar (join_split text) (join_split_scalar text Hwell))
    as [out Hout].
  exists out.
  assert (Hfirst : preprocess_text data = Ok out).
  { unfold preprocess_text. rewrite Hd.
    change (str_join [32] (str_split text)) with (join_split text).
    rewrite Ha. exact Hout. }
  pose proof (utf8_decode_encode _ _ Hout) as Hback.
  split; [exact Hfirst|]. split; [exact Hback|].
  unfold preprocess_text. rewrite Hback.
  change (str_join [32] (str_split (join_split text)))
    with (join_split (join_split text)).
  rewrite join_split_idempotent, Ha. exact Hout.
Qed.

Lemma preprocess_text_idempotent_witness :
  exists out,
    @preprocess_text demo_extern (bytes_of_string "  to be,   or not  ") = Ok out /\
    utf8_decode out = Ok (join_split [32; 32; 116; 111; 32; 98; 101; 44; 32; 32; 32;
                                     111; 114; 32; 110; 111; 116; 32; 32]) /\
    @preprocess_text demo_extern out = Ok out.
Proof.
  apply (preprocess_text_idempotent demo_extern); reflexivity.
Defined.

(** ** [compress_data]: what comes back *)

Lemma zlib_levels_result (E : Extern) (data : bytes) (levels : list Z)
  (best best' : bytes) (level level' : Z) :
  for_each (zlib_try data) levels (best, level) = Ok (best', level') ->
  (best' = best /\ level' = level) \/
  (level' ∈ levels /\ len best' < len best /\ zlib_compress data level' = Ok best').
Proof.
  revert best level. induction levels as [|l levels IH]; intros best level; simpl.
  { intros [= <- <-]. left. auto. }
  unfold zlib_try at 2. destruct (zlib_compress data l) as [c|e] eqn:Hc;
    [|discriminate].
  rewrite bind_Ok. cbn [fst].
  destruct (Z.ltb_spec (len c) (len best)) as [Hlt|Hge]; rewrite bind_Ok; intros Hrest.
  - apply IH in Hrest as [[-> ->]|(Hin & Hless & Hz)].
    + right. split; [left|]. auto.
    + right. split; [right; exact Hin|]. split; [lia|exact Hz].
  - apply IH in Hrest as [[-> ->]|(Hin & Hless & Hz)].
    + left. auto.
    + right. split; [right; exact Hin|]. auto.
Qed.

Lemma compress_guarded_result (E : Extern) (data d : bytes) (method label : string) :
  compress_guarded data method = Ok (d, label) ->
  (label = "store"%string /\ d = data) \/
  (d <> [] /\ len d < len data /\
   ((method = "zlib"%string /\ label ∈ ["zlib-1"; "zlib-6"; "zlib-9"]%string) \/
    (method = "bzip2"%string /\ label = "bzip2"%string) \/
    (method = "lzma"%string /\ label = "lzma"%string))).
Proof.
  unfold compress_guarded.
  destruct (decide (method = "store"%string)) as [_|_];
    [intros [= <- <-]; left; auto|].
  destruct (decide (method = "zlib"%string)) as [Hz|_].
  { destruct (for_each _ _ _) as [[best level]|err] eqn:Hbest; [|discriminate].
    rewrite !bind_Ok.
    destruct (negb _) eqn:Hne; cbn [andb];
      [|intros [= <- <-]; left; auto].
    destruct (Z.ltb_spec (len best) (len data)) as [Hlt|Hge];
      [|intros [= <- <-]; left; auto].
    intros [= <- <-]. right.
    apply negb_true_iff, bool_decide_eq_false in Hne.
    split; [exact Hne|]. split; [exact Hlt|]. left. split; [exact Hz|].
    apply zlib_levels_result in Hbest as [[_ ->]|(Hin & _ & _)].
    - right. left.
    - repeat (apply elem_of_cons in Hin as [->|Hin]);
        [left|right; left|right; right; left|inversion Hin]. }
  destruct (decide (method = "bzip2"%string)) as [Hb|_].
  { destruct (bz2_compress data 9) as [c|err]; [|discriminate].
    rewrite !bind_Ok.
    destruct (negb _) eqn:Hne; cbn [andb];
      [|intros [= <- <-]; left; auto].
    destruct (Z.ltb_spec (len c) (len data)) as [Hlt|Hge];
      [|intros [= <- <-]; left; auto].
    intros [= <- <-]. right.
    apply negb_true_iff, bool_decide_eq_false in Hne. auto 10. }
  destruct (decide (method = "lzma"%string)) as [Hl|_].
  { destruct (lzma_compress data 9) as [c|err]; [|discriminate].
    rewrite !bind_Ok.
    destruct (negb _) eqn:Hne; cbn [andb];
      [|intros [= <- <-]; left; auto].
    destruct (Z.ltb_spec (len c) (len data)) as [Hlt|Hge];
      [|intros [= <- <-]; left; auto].
    intros [= <- <-]. right.
    apply negb_true_iff, bool_decide_eq_false in Hne. auto 10. }
  rewrite bind_Ok. intros [= <- <-]. left. auto.
Qed.

(** X9: with an explicit method, what [compress_data] returns is either
    the preprocessed data labelled ['store'], or a non-empty output
    strictly shorter than the preprocessed data, labelled after the method
    that produced it: ['zlib-1'], ['zlib-6'] or ['zlib-9'] for zlib,
    ['bzip2'] for bzip2, ['lzma'] for lzma.  It never returns more bytes
    than it was about to compress. *)
Theorem compress_data_result (E : Extern) (data data' d : bytes)
  (method label : string) :
  method <> "auto"%string ->
  preprocessed data method = Ok data' ->
  compress_data data method = Ok (d, label) ->
  (label = "store"%string /\ d = data') \/
  (d <> [] /\ len d < len data' /\
   ((method = "zlib"%string /\ label ∈ ["zlib-1"; "zlib-6"; "zlib-9"]%string) \/
    (method = "bzip2"%string /\ label = "bzip2"%string) \/
    (method = "lzma"%string /\ label = "lzma"%string))).
Proof.
  intros Hm Hp. rewrite (compress_data_explicit E data method Hm), Hp, bind_Ok.
  destruct (compress_guarded data' method) as [[d' label']|e] eqn:Hg.
  - intros [= -> ->]. apply (compress_guarded_result E _ _ _ _ Hg).
  - intros [= <- <-]. left. auto.
Qed.

Lemma compress_data_result_witness :
  let data := bytes_of_string "aaaaaaaaaaaa" in
  @compress_data demo_extern data "bzip2" = Ok ([x0c; x61], "bzip2"%string) /\
  ([x0c; x61] <> [] /\ len [x0c; x61] < len data).
Proof.
  intros data. split; [reflexivity|].
  destruct (compress_data_result demo_extern data data [x0c; x61] "bzip2" "bzip2")
    as [[Hs _]|(Hne & Hlt & _)]; [discriminate|reflexivity|reflexivity|discriminate Hs|].
  split; [exact Hne|exact Hlt].
Defined.

(** X10: when the three zlib levels all answer with something, the bytes
    returned for ['zlib'] are the preprocessed data or one of the three
    outputs, and none of the four is shorter than what is returned. *)
Theorem zlib_takes_shortest (E : Extern) (data data' c1 c6 c9 d : bytes)
  (label : string) :
  preprocessed data "zlib" = Ok data' ->
  zlib_compress data' 1 = Ok c1 ->
  zlib_compress data' 6 = Ok c6 ->
  zlib_compress data' 9 = Ok c9 ->
  c1 <> [] -> c6 <> [] -> c9 <> [] ->
  compress_data data "zlib" = Ok (d, label) ->
  d ∈ [data'; c1; c6; c9] /\
  len d <= len data' /\ len d <= len c1 /\ len d <= len c6 /\ len d <= len c9.
Proof.
  intros Hp H1 H6 H9 N1 N6 N9.
  rewrite (compress_data_explicit E data "zlib") by discriminate.
  rewrite Hp, bind_Ok. unfold compress_guarded.
  destruct (decide ("zlib" = "store")%string) as [Hs|_]; [discriminate Hs|].
  destruct (decide ("zlib" = "zlib")%string) as [_|Hz]; [|contradiction].
  cbn [for_each]. unfold zlib_try. rewrite H1, H6, H9.
  repeat first
    [ rewrite bind_Ok
    | progress cbn beta iota zeta delta [fst andb]
    | match goal with
      | |- context [?a <? ?b] => destruct (Z.ltb_spec a b)
      | |- context [negb ?t] => destruct (negb t) eqn:?
      end ];
    intros [= <- <-];
    repeat match goal with
           | H : negb _ = false |- _ =>
               apply negb_false_iff, bool_decide_eq_true in H
           | H : negb _ = true |- _ => clear H
           end;
    try congruence;
    (split; [set_solver|unfold len in *; subst; simpl in *; lia]).
Qed.

Lemma zlib_takes_shortest_witness :
  let data := bytes_of_string "aaaaaaaaaaaa" in
  exists d label,
    @compress_data demo_extern data "zlib" = Ok (d, label) /\
    len d <= len data /\ len d <= len (rle data).
Proof.
  intros data. exists [x0c; x61], "zlib-1"%string.
  split; [reflexivity|].
  destruct (zlib_takes_shortest demo_extern data data (rle data) (rle data)
              (rle data) [x0c; x61] "zlib-1")
    as (_ & H0 & H1 & _); try reflexivity; try discriminate.
  split; [exact H0|exact H1].
Defined.

(** X11: a method name that is none of the five known ones compresses
    nothing: the data is preprocessed and returned labelled ['store']. *)
Theorem compress_data_unknown_method (E : Extern) (data data' : bytes)
  (method : string) :
  method ∉ ["auto"; "store"; "zlib"; "bzip2"; "lzma"]%string ->
  preprocessed data method = Ok data' ->
  compress_data data method = Ok (data', "store"%string).
Proof.
  intros Hm Hp.
  rewrite (compress_data_explicit E data method) by set_solver.
  rewrite Hp, bind_Ok. unfold compress_guarded.
  repeat (destruct (decide _) as [->|_]; [exfalso; set_solver|]).
  reflexivity.
Qed.

Lemma compress_data_unknown_method_witness :
  @compress_data demo_extern (bytes_of_string "a  b") "gzip"
  = Ok (bytes_of_string "a b", "store"%string).
Proof.
  apply (compress_data_unknown_method demo_extern); [|reflexivity].
  intros Hin. repeat (apply elem_of_cons in Hin as [Heq|Hin]; [discriminate Heq|]).
  inversion Hin.
Defined.

Lemma is_compressed_sample (data : bytes) :
  _is_compressed (take 4096 data) = _is_compressed data.
Proof.
  unfold _is_compressed, compression_signatures. simpl existsb.
  rewrite !startswith_take by (simpl; lia). reflexivity.
Qed.

(** X12: data that begins with one of the six signatures is never
    preprocessed: with an explicit method the compressor gets the input
    itself, and bytes that come back labelled ['store'] are the input,
    unchanged. *)
Theorem compress_data_keeps_compressed_input (E : Extern) (data : bytes)
  (method : string) :
  _is_compressed data = true ->
  method <> "auto"%string ->
  preprocessed data method = Ok data /\
  (forall d, compress_data data method = Ok (d, "store"%string) -> d = data).
Proof.
  intros Hc Hm.
  assert (Hp : preprocessed data method = Ok data).
  { unfold preprocessed. rewrite is_compressed_sample, Hc, andb_false_r.
    reflexivity. }
  split; [exact Hp|]. intros d Hd.
  apply (compress_data_store_label E data d method Hm) in Hd. congruence.
Qed.

Lemma compress_data_keeps_compressed_input_witness :
  let data := [x42; x5a; x68; x20; x20; x41] in
  @compress_data demo_extern data "zlib" = Ok (data, "store"%string).
Proof.
  intros data.
  destruct (compress_data_keeps_compressed_input demo_extern data "zlib")
    as [_ Hstore]; [reflexivity|discriminate|].
  destruct (@compress_data demo_extern data "zlib") as [[d label]|e] eqn:Hc;
    vm_compute in Hc; [|discriminate].
  injection Hc as <- <-. reflexivity.
Defined.

Lemma compress_data_on_empty (E : Extern) (method : string) :
  compress_data [] method = Ok ([], "store"%string).
Proof.
  assert (Hexplicit : forall m, m <> "auto"%string ->
            compress_data [] m = Ok ([], "store"%string)).
  { intros m Hm. rewrite (compress_data_explicit E [] m Hm).
    assert (Hp : preprocessed [] m = Ok []).
    { unfold preprocessed. destruct (_ && _); reflexivity. }
    rewrite Hp, bind_Ok.
    destruct (compress_guarded [] m) as [[d label]|e] eqn:Hg; [|reflexivity].
    apply (compress_guarded_result E) in Hg as [[-> ->]|(_ & Hlt & _)]; [reflexivity|].
    unfold len in Hlt. simpl in Hlt. lia. }
  destruct (decide (method = "auto"%string)) as [->|Hm]; [|apply Hexplicit, Hm].
  rewrite compress_data_auto. change (analyze_data []) with (Ok "zlib"%string).
  rewrite bind_Ok. apply Hexplicit. discriminate.
Qed.

(** X13: the empty input comes back empty and labelled ['store'] with
    every method name, ['auto'] included, whatever the compressors answer
    or raise. *)
Theorem compress_data_empty (E : Extern) (method : string) :
  compress_data [] method = Ok ([], "store"%string).
Proof. apply compress_data_on_empty. Qed.

(** ** [format_size] *)

Lemma Qle_bool_1024 (n : Z) (d : positive) :
  Qle_bool 1024 (n # d) = (1024 * Zpos d <=? n).
Proof. unfold Qle_bool. simpl. rewrite Z.mul_1_r. reflexivity. Qed.

(** X14: for a size that a float holds exactly (below 2^53),
    [format_size] prints bytes below 1024, KB below 1024^2, MB below
    1024^3, GB below 1024^4 and TB from there on, with no larger unit: the
    number printed is the size divided by 1024 once per step up. *)
Theorem format_size_unit (size : Z) :
  0 <= size < 9007199254740992 ->
  format_size size
  = (format_1f (scaled (size_unit size) (inject_Z size))
     +:+ " " +:+ unit_name (size_unit size))%string.
Proof.
  intros _. unfold format_size, size_unit, inject_Z.
  cbn [format_size_go]. unfold Qdiv, Qmult, Qinv. cbn [Qnum Qden].
  rewrite !Qle_bool_1024.
  repeat match goal with
         | |- context [?a <=? ?b] => destruct (Z.leb_spec a b)
         | |- context [?a <? ?b] => destruct (Z.ltb_spec a b)
         end; try lia; reflexivity.
Qed.

Lemma format_size_unit_witness :
  format_size 1536 = "1.5 KB"%string /\
  format_size 5368709120 = "5.0 GB"%string /\
  format_size 2251799813685248 = "2048.0 TB"%string.
Proof.
  rewrite (format_size_unit 1536), (format_size_unit 5368709120),
    (format_size_unit 2251799813685248) by lia.
  repeat split.
Defined.

Lemma string_app_assoc (s1 s2 s3 : string) :
  ((s1 +:+ s2) +:+ s3 = s1 +:+ (s2 +:+ s3))%string.
Proof.
  induction s1 as [|c s1 IH]; [reflexivity|].
  change (String c ((s1 +:+ s2) +:+ s3) = String c (s1 +:+ (s2 +:+ s3)))%string.
  rewrite IH. reflexivity.
Qed.

Lemma round_half_even_tenths (n : Z) : round_half_even (inject_Z n * 10) = n * 10.
Proof.
  unfold round_half_even, inject_Z, Qmult, Qfloor. cbn [Qnum Qden Pos.mul].
  rewrite Z.div_1_r.
  replace (Qcompare _ _) with Lt; [reflexivity|].
  symmetry. unfold Qcompare, Qminus, Qplus, Qopp, inject_Z. simpl.
  apply Z.compare_lt_iff. lia.
Qed.

(** X15: a size below 1024 bytes is shown as the number itself with one
    decimal zero and the unit B. *)
Theorem format_size_bytes (size : Z) :
  0 <= size < 1024 ->
  format_size size = (pretty size +:+ ".0 B")%string.
Proof.
  intros Hs. unfold format_size. cbn [format_size_go].
  unfold inject_Z at 1. rewrite Qle_bool_1024.
  destruct (Z.leb_spec (1024 * 1) size); [lia|]. cbn [negb].
  unfold format_1f. rewrite round_half_even_tenths.
  rewrite Z.div_mul, Z.mod_mul by lia.
  change (pretty 0) with "0"%string.
  rewrite string_app_assoc. reflexivity.
Qed.

Lemma format_size_bytes_witness : format_size 512 = "512.0 B"%string.
Proof. apply (format_size_bytes 512). lia. Defined.

(** ** [create_zip]: runs that succeed and runs that stop *)

Section Runs.
Context (E : Extern) (F : ZipFormat).

Lemma zip_one_report (output_path : string) (total_files : Z) (st : run)
  (index : Z) (file_path : string) (e : zip_entry) :
  total_files <> 0 ->
  file_path <> output_path ->
  member_for (run_fs st) (compression_method (run_gui st)) file_path = Some e ->
  exists st',
    zip_one output_path total_files st index file_path = (st', None) /\
    run_entries st' = run_entries st ++ [e] /\
    original_size st' = original_size st + file_len (run_fs st) file_path /\
    compressed_size st' = compressed_size st + len (payload e).
Proof.
  intros Htotal Hne.
  destruct (truediv_nonzero index total_files Htotal) as [fraction Hdiv].
  unfold zip_one, member_for, read_file, file_len.
  destruct (files (run_fs st) !! file_path) as [data|] eqn:Hdata; [|discriminate].
  simpl compression_method.
  destruct (decide (compression_method (run_gui st) = "store"%string)) as [Hs|Hs].
  - intros [= <-].
    rewrite bool_decide_eq_true_2 by exact Hs. simpl negb. cbv iota.
    unfold getsize, read_file, add_member. simpl.
    rewrite lookup_insert_ne by congruence. rewrite Hdata. simpl.
    rewrite Hdiv. eexists. repeat split; reflexivity.
  - rewrite bool_decide_eq_false_2 by exact Hs. simpl negb. cbv iota.
    destruct (compress_data data _) as [[cd used]|err]; [|discriminate].
    intros [= <-]. rewrite Hdiv. eexists. repeat split; reflexivity.
Qed.

Lemma zip_one_stops (output_path : string) (total_files : Z) (st : run)
  (index : Z) (file_path : string) :
  member_for (run_fs st) (compression_method (run_gui st)) file_path = None ->
  exists st' e,
    zip_one output_path total_files st index file_path = (st', Some e) /\
    run_entries st' = run_entries st /\
    run_fs st' = run_fs st /\
    (files (run_fs st) !! file_path = None -> e = OSError file_path).
Proof.
  unfold zip_one, member_for, read_file.
  destruct (files (run_fs st) !! file_path) as [data|] eqn:Hdata.
  - simpl compression_method.
    destruct (decide (compression_method (run_gui st) = "store"%string)) as [Hs|Hs];
      [discriminate|].
    rewrite bool_decide_eq_false_2 by exact Hs. simpl negb. cbv iota.
    destruct (compress_data data _) as [[cd used]|err]; [discriminate|].
    intros _. eexists _, err. repeat split; try reflexivity. discriminate.
  - intros _. eexists _, (OSError file_path). repeat split; reflexivity.
Qed.

Lemma zip_loop_report (output_path : string) (total_files : Z)
  (fs0 : filesystem) (m : string) (file_paths : list string) :
  total_files <> 0 ->
  Forall (fun f => f <> output_path /\ is_Some (member_for fs0 m f)) file_paths ->
  forall (index : Z) (st : run),
    compression_method (run_gui st) = m ->
    same_except output_path fs0 (run_fs st) ->
    exists entries st',
      Forall2 (fun f e => member_for fs0 m f = Some e) file_paths entries /\
      zip_loop output_path total_files file_paths index st = (st', None) /\
      run_entries st' = run_entries st ++ entries /\
      original_size st' = original_size st + sum_Z (map (file_len fs0) file_paths) /\
      compressed_size st'
      = compressed_size st + sum_Z (map (fun e => len (payload e)) entries) /\
      compression_method (run_gui st') = m /\
      same_except output_path fs0 (run_fs st').
Proof.
  intros Htotal Hall.
  induction Hall as [|f rest [Hne [e He]] _ IH]; intros index st Hmethod Hsame.
  { exists [], st. rewrite app_nil_r. simpl. rewrite !Z.add_0_r.
    split_and!; auto. }
  assert (He' : member_for (run_fs st) (compression_method (run_gui st)) f = Some e).
  { rewrite Hmethod, (member_for_same E output_path fs0 (run_fs st) m f Hsame Hne).
    exact He. }
  destruct (zip_one_report output_path total_files st index f e Htotal Hne He')
    as (st1 & Hone & Hentries & Horig & Hcomp).
  pose proof (zip_one_frame E F output_path total_files st index f) as Hframe.
  rewrite Hone in Hframe. destruct Hframe as [(_ & _ & Hm1 & _) Hfs1].
  destruct (IH (index + 1) st1) as
    (entries & st' & Hrest & Hloop & Hentries' & Horig' & Hcomp' & Hm' & Hfs').
  { rewrite Hm1. exact Hmethod. }
  { eapply same_except_trans; eassumption. }
  exists (e :: entries), st'. split_and!.
  - constructor; assumption.
  - simpl. rewrite Hone. exact Hloop.
  - rewrite Hentries', Hentries, <- app_assoc. reflexivity.
  - assert (Hlen : file_len (run_fs st) f = file_len fs0 f).
    { unfold file_len. destruct Hsame as [_ Hsame].
      specialize (Hsame f Hne). unfold bytes in *. rewrite Hsame. reflexivity. }
    rewrite Horig', Horig, Hlen. unfold sum_Z. cbn [map foldr]. lia.
  - rewrite Hcomp', Hcomp. unfold sum_Z. cbn [map foldr]. lia.
  - exact Hm'.
  - exact Hfs'.
Qed.

Lemma zip_loop_app (output_path : string) (total_files : Z)
  (pre rest : list string) (index : Z) (st : run) :
  zip_loop output_path total_files (pre ++ rest) index st =
    match zip_loop output_path total_files pre index st with
    | (st', None) => zip_loop output_path total_files rest (index + len pre) st'
    | (st', Some e) => (st', Some e)
    end.
Proof.
  revert index st. induction pre as [|f pre IH]; intros index st.
  { simpl. unfold len. simpl. rewrite Z.add_0_r. reflexivity. }
  simpl. destruct (zip_one _ _ _ _ _) as [st1 [e|]]; [reflexivity|].
  rewrite IH. replace (index + 1 + len pre) with (index + len (f :: pre))
    by (unfold len; simpl length; lia).
  reflexivity.
Qed.

(** What [create_zip] answers, from how the [with] block ended. *)
Lemma create_zip_of_run (g : gui) (fs : filesystem) (output_path : string)
  (st : run) (raised : option exn) :
  with_zipfile g fs output_path = (st, raised) ->
  create_zip g fs output_path =
    match raised with
    | Some e => (finished (run_gui st) (Failed e), run_fs st, [showerror e])
    | None =>
        if decide (original_size st = 0)
        then (finished (run_gui st) (Failed ZeroDivisionError), run_fs st,
              [showerror ZeroDivisionError])
        else (finished (run_gui st)
                (Created (original_size st) (compressed_size st)),
              run_fs st,
              [showinfo (original_size st) (compressed_size st)])
    end.
Proof.
  intros Hrun. unfold create_zip. rewrite Hrun.
  destruct raised as [e|]; [reflexivity|].
  unfold truediv. simpl to_Q.
  destruct (decide (original_size st = 0)) as [->|Hne]; [reflexivity|].
  destruct (Qeq_bool (inject_Z (original_size st)) 0) eqn:Hz; [|reflexivity].
  apply Qeq_bool_iff in Hz. unfold Qeq, inject_Z in Hz. simpl in Hz. lia.
Qed.

Lemma with_zipfile_report (g : gui) (fs : filesystem) (output_path : string) :
  output_path ∉ denied fs ->
  output_path ∉ files_to_zip g ->
  Forall (fun f => is_Some (member_for fs (compression_method g) f))
    (files_to_zip g) ->
  exists entries st,
    Forall2 (fun f e => member_for fs (compression_method g) f = Some e)
      (files_to_zip g) entries /\
    with_zipfile g fs output_path = (st, None) /\
    run_entries st = entries /\
    original_size st = sum_Z (map (file_len fs) (files_to_zip g)) /\
    compressed_size st = sum_Z (map (fun e => len (payload e)) entries) /\
    files (run_fs st) !! output_path = Some (zip_bytes entries).
Proof.
  intros Hd Hout Hall. unfold with_zipfile.
  destruct (decide _) as [|_]; [contradiction|].
  destruct (files_to_zip g) as [|f0 rest] eqn:Hsel.
  { exists [], {| run_gui := g;
                  run_fs := write_file (write_file fs output_path (zip_partial []))
                              output_path (zip_bytes []);
                  run_entries := []; original_size := 0; compressed_size := 0 |}.
    repeat split; try reflexivity; [constructor|]. simpl. apply lookup_insert_eq. }
  rewrite <- Hsel in *.
  match goal with
  | |- context [zip_loop ?o ?t ?l ?i ?s] =>
      destruct (zip_loop_report o t fs (compression_method g) l)
        with (index := i) (st := s)
        as (entries & st' & Hmembers & Hloop & Hentries & Horig & Hcomp & _ & _)
  end.
  - rewrite Hsel. unfold len. simpl. lia.
  - apply Forall_forall. intros f Hf. split.
    + intros ->. contradiction.
    + rewrite Forall_forall in Hall. apply Hall, Hf.
  - reflexivity.
  - apply same_except_write.
  - exists entries,
      {| run_gui := run_gui st';
         run_fs := write_file (run_fs st') output_path (zip_bytes (run_entries st'));
         run_entries := run_entries st';
         original_size := original_size st';
         compressed_size := compressed_size st' |}.
    rewrite Hloop. simpl in Hentries, Horig, Hcomp. cbn [run_entries run_fs
      original_size compressed_size]. split_and!.
    + exact Hmembers.
    + reflexivity.
    + exact Hentries.
    + lia.
    + lia.
    + rewrite Hentries. apply lookup_insert_eq.
Qed.

Lemma member_for_readable (fs : filesystem) (m f : string) :
  m <> "auto"%string -> is_Some (files fs !! f) -> is_Some (member_for fs m f).
Proof.
  intros Hm [data Hdata]. unfold member_for, bytes in *. rewrite Hdata.
  destruct (decide _); [eauto|].
  destruct (compress_data_explicit_returns E data m Hm) as [[cd used] ->]. eauto.
Qed.

Lemma member_for_empty_file (fs : filesystem) (m f : string) :
  files fs !! f = Some [] ->
  member_for fs m f = Some {| arcname := basename f; payload := [] |}.
Proof.
  intros Hdata. unfold member_for, bytes in *. rewrite Hdata.
  destruct (decide _); [reflexivity|].
  rewrite compress_data_on_empty. reflexivity.
Qed.

(** X16: with an explicit method, every selected file on disk, a total
    input size that is not 0 and an output path that is accepted and not
    itself selected, [create_zip] writes one member per selected file in
    the order of the selection and reports success: the box and the status
    line carry the sum of the file sizes and the sum of the sizes of the
    payloads written. *)
Theorem create_zip_report (g : gui) (fs : filesystem) (output_path : string) :
  output_path ∉ denied fs ->
  output_path ∉ files_to_zip g ->
  compression_method g <> "auto"%string ->
  Forall (fun f => is_Some (files fs !! f)) (files_to_zip g) ->
  sum_Z (map (file_len fs) (files_to_zip g)) <> 0 ->
  exists entries,
    Forall2 (fun f e => member_for fs (compression_method g) f = Some e)
      (files_to_zip g) entries /\
    (create_zip g fs output_path).2
    = [showinfo (sum_Z (map (file_len fs) (files_to_zip g)))
         (sum_Z (map (fun e => len (payload e)) entries))] /\
    status_label (create_zip g fs output_path).1.1
    = Created (sum_Z (map (file_len fs) (files_to_zip g)))
        (sum_Z (map (fun e => len (payload e)) entries)) /\
    files (create_zip g fs output_path).1.2 !! output_path
    = Some (zip_bytes entries).
Proof.
  intros Hd Hout Hm Hall Hsize.
  destruct (with_zipfile_report g fs output_path Hd Hout)
    as (entries & st & Hmembers & Hrun & Hentries & Horig & Hcomp & Hfile).
  { eapply Forall_impl; [exact Hall|]. intros f Hf.
    apply member_for_readable; assumption. }
  exists entries. split; [exact Hmembers|].
  rewrite (create_zip_of_run g fs output_path st None Hrun).
  destruct (decide (original_size st = 0)) as [Hz|_]; [congruence|].
  rewrite Horig, Hcomp. split_and!; [reflexivity|reflexivity|exact Hfile].
Qed.

(** X17: with an output path that is accepted and not itself selected,
    when every selected file is empty, whatever the method, the archive is
    written in full, one empty member per file named by its basename, and
    yet the run ends with an error box: the compression ratio divides by
    the total input size, which is 0. *)
Theorem create_zip_empty_files (g : gui) (fs : filesystem) (output_path : string) :
  output_path ∉ denied fs ->
  output_path ∉ files_to_zip g ->
  Forall (fun f => files fs !! f = Some []) (files_to_zip g) ->
  (create_zip g fs output_path).2 = [showerror ZeroDivisionError] /\
  files (create_zip g fs output_path).1.2 !! output_path
  = Some (zip_bytes (map (fun f => {| arcname := basename f; payload := [] |})
                       (files_to_zip g))).
Proof.
  intros Hd Hout Hall.
  destruct (with_zipfile_report g fs output_path Hd Hout)
    as (entries & st & Hmembers & Hrun & Hentries & Horig & Hcomp & Hfile).
  { eapply Forall_impl; [exact Hall|]. intros f Hf.
    rewrite (member_for_empty_file fs _ f Hf). eauto. }
  assert (Hzero : sum_Z (map (file_len fs) (files_to_zip g)) = 0).
  { clear -Hall. induction Hall as [|f l Hf _ IH]; [reflexivity|].
    unfold sum_Z in *. cbn [map foldr]. rewrite IH. unfold file_len.
    unfold bytes in *. rewrite Hf. reflexivity. }
  assert (Hmap : entries = map (fun f => {| arcname := basename f; payload := [] |})
                             (files_to_zip g)).
  { clear -Hall Hmembers. induction Hmembers as [|f e l es He _ IH];
      [reflexivity|].
    inversion Hall as [|? ? Hf Hl]; subst.
    rewrite (member_for_empty_file fs _ f Hf) in He. injection He as <-.
    cbn [map]. rewrite (IH Hl). reflexivity. }
  rewrite (create_zip_of_run g fs output_path st None Hrun).
  destruct (decide (original_size st = 0)) as [_|Hnz]; [|congruence].
  split; [reflexivity|]. cbn [fst snd]. rewrite <- Hmap. exact Hfile.
Qed.

(** X18: with an output path that is accepted and not itself selected,
    the run stops at the first selected file that cannot be read or whose
    compression raises: the files before it are in the archive, in order,
    nothing after it is, the archive is closed all the same, and an error
    box is shown (naming the path when the file is not there). *)
Theorem create_zip_stops_at_failure (g : gui) (fs : filesystem)
  (output_path : string) (pre post : list string) (f : string) :
  output_path ∉ denied fs ->
  output_path ∉ files_to_zip g ->
  files_to_zip g = pre ++ f :: post ->
  Forall (fun p => is_Some (member_for fs (compression_method g) p)) pre ->
  member_for fs (compression_method g) f = None ->
  exists entries e,
    Forall2 (fun p m => member_for fs (compression_method g) p = Some m)
      pre entries /\
    (create_zip g fs output_path).2 = [showerror e] /\
    files (create_zip g fs output_path).1.2 !! output_path
    = Some (zip_bytes entries) /\
    (files fs !! f = None -> e = OSError f).
Proof.
  intros Hd Hout Hsel Hpre Hf.
  assert (Hnotout : forall p, p ∈ pre ++ f :: post -> p <> output_path).
  { intros p Hp ->. apply Hout. rewrite Hsel. exact Hp. }
  destruct (zip_loop_report output_path (len (files_to_zip g)) fs
              (compression_method g) pre) with
    (index := 1)
    (st := {| run_gui := g;
              run_fs := write_file fs output_path (zip_partial []);
              run_entries := []; original_size := 0; compressed_size := 0 |})
    as (entries & st1 & Hmembers & Hloop & Hentries & _ & _ & Hm1 & Hfs1).
  { rewrite Hsel. unfold len. rewrite length_app. simpl. lia. }
  { apply Forall_forall. intros p Hp. split.
    - apply Hnotout, elem_of_app. left. exact Hp.
    - rewrite Forall_forall in Hpre. apply Hpre, Hp. }
  { reflexivity. }
  { apply same_except_write. }
  assert (Hfne : f <> output_path).
  { apply Hnotout, elem_of_app. right. left. }
  destruct (zip_one_stops output_path (len (files_to_zip g)) st1 (1 + len pre) f)
    as (st2 & e & Hone & Hentries2 & Hfs2 & Hmissing).
  { rewrite Hm1, (member_for_same E output_path fs (run_fs st1) _ f Hfs1 Hfne).
    exact Hf. }
  assert (Hrun : with_zipfile g fs output_path
                 = ({| run_gui := run_gui st2;
                       run_fs := write_file (run_fs st2) output_path
                                   (zip_bytes (run_entries st2));
                       run_entries := run_entries st2;
                       original_size := original_size st2;
                       compressed_size := compressed_size st2 |}, Some e)).
  { unfold with_zipfile. destruct (decide _) as [|_]; [contradiction|].
    rewrite Hsel at 2. rewrite zip_loop_app, Hloop. cbn [zip_loop].
    rewrite Hone. reflexivity. }
  exists entries, e. split; [exact Hmembers|].
  rewrite (create_zip_of_run g fs output_path _ _ Hrun). cbn [fst snd run_fs run_entries].
  split_and!.
  - reflexivity.
  - rewrite Hentries2, Hentries. apply lookup_insert_eq.
  - intros Hnone. apply Hmissing.
    destruct Hfs1 as [_ Hsame]. rewrite (Hsame f Hfne). exact Hnone.
Qed.

(** X19: however the run goes, [create_zip] shows exactly one box, an
    information box with the status line set to the same report or an
    error box with the status line set to the same error, and it leaves
    the window idle: flag cleared, buttons enabled, progress bar at 0,
    selection, rows and method as they were. *)
Theorem create_zip_always_finishes (g : gui) (fs : filesystem)
  (output_path : string) :
  let r := create_zip g fs output_path in
  is_processing r.1.1 = false /\
  buttons_normal r.1.1 = true /\
  progress_var r.1.1 = 0%Q /\
  files_to_zip r.1.1 = files_to_zip g /\
  tree r.1.1 = tree g /\
  compression_method r.1.1 = compression_method g /\
  ((exists o c, r.2 = [showinfo o c] /\ status_label r.1.1 = Created o c) \/
   (exists e, r.2 = [showerror e] /\ status_label r.1.1 = Failed e)).
Proof.
  intros r. subst r.
  pose proof (with_zipfile_frame E F g fs output_path) as Hframe.
  destruct (with_zipfile g fs output_path) as [st raised] eqn:Hrun.
  destruct Hframe as [(H1 & H2 & H3 & _ & _) _].
  rewrite (create_zip_of_run g fs output_path st raised Hrun).
  destruct raised as [e|]; [|destruct (decide _)]; cbn [fst snd];
    (split_and!; [reflexivity|reflexivity|reflexivity|exact H1|exact H2|exact H3|]);
    eauto.
Qed.

(** X20: when the output path cannot be created, nothing on disk changes
    and the run ends at once with an error box naming the path. *)
Theorem create_zip_refused (g : gui) (fs : filesystem) (output_path : string) :
  output_path ∈ denied fs ->
  create_zip g fs output_path
  = (finished g (Failed (OSError output_path)), fs,
     [showerror (OSError output_path)]).
Proof.
  intros Hd.
  rewrite (create_zip_of_run g fs output_path
             {| run_gui := g; run_fs := fs; run_entries := [];
                original_size := 0; compressed_size := 0 |}
             (Some (OSError output_path))); [reflexivity|].
  unfold with_zipfile. destruct (decide _); [reflexivity|contradiction].
Qed.

End Runs.

Lemma create_zip_report_witness :
  let fs := {| files := {[ "/tmp/a.txt"%string := bytes_of_string "aaaaaaaaaaaa";
                           "/tmp/b.txt"%string := bytes_of_string "ab" ]};
               denied := ∅ |} in
  let g := set_method (set_files initial_gui ["/tmp/a.txt"; "/tmp/b.txt"]%string)
             "zlib" in
  exists entries,
    Forall2 (fun f e => @member_for demo_extern fs "zlib" f = Some e)
      ["/tmp/a.txt"; "/tmp/b.txt"]%string entries /\
    (@create_zip demo_extern demo_zip g fs "/tmp/out.zip").2
    = [showinfo 14 (sum_Z (map (fun e => len (payload e)) entries))] /\
    files (@create_zip demo_extern demo_zip g fs "/tmp/out.zip").1.2
      !! "/tmp/out.zip"%string
    = Some (demo_closed entries).
Proof.
  intros fs g.
  destruct (create_zip_report demo_extern demo_zip g fs "/tmp/out.zip")
    as (entries & Hmembers & Hshown & _ & Hfile).
  - apply not_elem_of_empty.
  - intros Hin. repeat (apply elem_of_cons in Hin as [Heq|Hin]; [discriminate Heq|]).
    inversion Hin.
  - discriminate.
  - repeat constructor; eexists; reflexivity.
  - vm_compute. discriminate.
  - exists entries. split; [exact Hmembers|]. split; [exact Hshown|exact Hfile].
Defined.

Lemma create_zip_empty_files_witness :
  let fs := {| files := {[ "/tmp/e.txt"%string := [] ]}; denied := ∅ |} in
  let g := set_files initial_gui ["/tmp/e.txt"%string] in
  (@create_zip demo_extern demo_zip g fs "/tmp/out.zip").2
  = [showerror ZeroDivisionError] /\
  files (@create_zip demo_extern demo_zip g fs "/tmp/out.zip").1.2
    !! "/tmp/out.zip"%string
  = Some (demo_closed [{| arcname := "e.txt"; payload := [] |}]).
Proof.
  intros fs g.
  apply (create_zip_empty_files demo_extern demo_zip g fs "/tmp/out.zip").
  - apply not_elem_of_empty.
  - intros Hin. repeat (apply elem_of_cons in Hin as [Heq|Hin]; [discriminate Heq|]).
    inversion Hin.
  - repeat constructor.
Defined.

Lemma create_zip_stops_at_failure_witness :
  let fs := {| files := {[ "/tmp/a.txt"%string := bytes_of_string "ab";
                           "/tmp/c.txt"%string := bytes_of_string "cd" ]};
               denied := ∅ |} in
  let g := set_method
             (set_files initial_gui ["/tmp/a.txt"; "/tmp/gone"; "/tmp/c.txt"]%string)
             "store" in
  exists entries,
    Forall2 (fun p m => @member_for demo_extern fs "store" p = Some m)
      ["/tmp/a.txt"%string] entries /\
    (@create_zip demo_extern demo_zip g fs "/tmp/out.zip").2
    = [showerror (OSError "/tmp/gone")] /\
    files (@create_zip demo_extern demo_zip g fs "/tmp/out.zip").1.2
      !! "/tmp/out.zip"%string
    = Some (demo_closed entries).
Proof.
  intros fs g.
  destruct (create_zip_stops_at_failure demo_extern demo_zip g fs "/tmp/out.zip"
              ["/tmp/a.txt"%string] ["/tmp/c.txt"%string] "/tmp/gone")
    as (entries & e & Hmembers & Hshown & Hfile & Hmissing).
  - apply not_elem_of_empty.
  - intros Hin. repeat (apply elem_of_cons in Hin as [Heq|Hin]; [discriminate Heq|]).
    inversion Hin.
  - reflexivity.
  - repeat constructor; eexists; reflexivity.
  - reflexivity.
  - exists entries. rewrite (Hmissing eq_refl) in Hshown.
    split; [exact Hmembers|]. split; [exact Hshown|exact Hfile].
Defined.

Lemma create_zip_refused_witness :
  let fs := {| files := {[ "/tmp/a.txt"%string := [x61] ]};
               denied := {[ "/proc/out.zip"%string ]} |} in
  let g := set_files initial_gui ["/tmp/a.txt"%string] in
  @create_zip demo_extern demo_zip g fs "/proc/out.zip"
  = (finished g (Failed (OSError "/proc/out.zip")), fs,
     [showerror (OSError "/proc/out.zip")]).
Proof.
  intros fs g. apply create_zip_refused. cbn [denied fs]. set_solver.
Defined.

(** ** Names in the archive *)

Lemma has_char_app (c : ascii) (s t : string) :
  has_char c (s +:+ t) = has_char c s || has_char c t.
Proof.
  induction s as [|c' s IH]; [reflexivity|].
  change (has_char c (String c' (s +:+ t))
          = (bool_decide (c' = c) || has_char c s) || has_char c t).
  cbn [has_char]. rewrite IH, orb_assoc. reflexivity.
Qed.

Lemma basename_go_no_slash (p acc : string) :
  has_char "/" acc = false -> has_char "/" (basename_go acc p) = false.
Proof.
  revert acc. induction p as [|c p IH]; intros acc Hacc; [exact Hacc|].
  cbn [basename_go]. case_bool_decide as Hc; apply IH; [reflexivity|].
  rewrite has_char_app, Hacc. cbn [has_char orb].
  rewrite bool_decide_eq_false_2 by exact Hc. reflexivity.
Qed.

Lemma basename_no_slash (p : string) : has_char "/" (basename p) = false.
Proof. apply basename_go_no_slash. reflexivity. Qed.

(** The labels [compress_data] can return, ['auto'] included. *)
Lemma compress_data_label (E : Extern) (data d : bytes) (method label : string) :
  compress_data data method = Ok (d, label) ->
  label ∈ ["store"; "zlib-1"; "zlib-6"; "zlib-9"; "bzip2"; "lzma"]%string.
Proof.
  assert (Hexplicit : forall m, m <> "auto"%string ->
            compress_data data m = Ok (d, label) ->
            label ∈ ["store"; "zlib-1"; "zlib-6"; "zlib-9"; "bzip2"; "lzma"]%string).
  { intros m Hm.
    rewrite (compress_data_explicit E data m Hm).
    destruct (preprocessed data m) as [data'|e]; [|discriminate].
    rewrite bind_Ok.
    destruct (compress_guarded data' m) as [[d' label']|e] eqn:Hg.
    - intros [= -> ->].
      apply (compress_guarded_result E) in Hg
        as [[-> _]|(_ & _ & [[_ Hl]|[[_ ->]|[_ ->]]])];
        [| repeat (apply elem_of_cons in Hl as [->|Hl]); [..|inversion Hl] | |];
        repeat constructor.
    - intros [= <- <-]. constructor. }
  destruct (decide (method = "auto"%string)) as [->|Hm]; [|apply Hexplicit, Hm].
  rewrite compress_data_auto.
  destruct (analyze_data data) as [m|e] eqn:Ha; [|discriminate].
  apply analyze_data_returns in Ha as [_ ->]. rewrite bind_Ok.
  apply Hexplicit. discriminate.
Qed.

(** X21: the name of a member never contains a slash: it is the basename
    of the file, followed by a dot and the label when the data was
    compressed.  The archive is flat, whatever directories the files come
    from. *)
Theorem member_names_are_flat (E : Extern) (fs : filesystem)
  (method file_path : string) (e : zip_entry) :
  member_for fs method file_path = Some e ->
  has_char "/" (arcname e) = false.
Proof.
  unfold member_for. destruct (files fs !! file_path) as [data|]; [|discriminate].
  destruct (decide _); [intros [= <-]; apply basename_no_slash|].
  destruct (compress_data data method) as [[cd used]|err] eqn:Hc; [|discriminate].
  intros [= <-]. cbn [arcname]. unfold arc_name_for.
  destruct (decide _); [apply basename_no_slash|].
  rewrite !has_char_app, basename_no_slash.
  apply compress_data_label in Hc.
  repeat (apply elem_of_cons in Hc as [->|Hc]; [reflexivity|]). inversion Hc.
Qed.

Lemma member_names_are_flat_witness :
  let fs := {| files := {[ "/home/u/docs/a.txt"%string := bytes_of_string "aaaaaaaaaaaa" ]};
               denied := ∅ |} in
  @member_for demo_extern fs "bzip2" "/home/u/docs/a.txt"
  = Some {| arcname := "a.txt.bzip2"; payload := [x0c; x61] |}
  /\ has_char "/" "a.txt.bzip2" = false.
Proof.
  intros fs. split; [reflexivity|].
  apply (member_names_are_flat demo_extern fs "bzip2" "/home/u/docs/a.txt"
           {| arcname := "a.txt.bzip2"; payload := [x0c; x61] |}).
  reflexivity.
Defined.

(** ** More about sessions *)

Section MoreSessions.
Context (E : Extern) (F : ZipFormat).

Lemma reachable_method (w : world) :
  reachable w -> compression_method (w_gui w) ∈ methods.
Proof.
  induction 1 as [fs|w ev w' shown _ IH Hfire]; [repeat constructor|].
  destruct ev as [chosen| |answer|m|]; simpl in Hfire.
  - destruct (buttons_normal (w_gui w)); simplify_eq. simpl.
    destruct (add_files_flags (w_fs w) chosen (w_gui w)) as (-> & _). exact IH.
  - destruct (buttons_normal (w_gui w)); simplify_eq. exact IH.
  - destruct (buttons_normal (w_gui w)); [|discriminate].
    unfold create_zip_threaded in Hfire.
    repeat (break_match; simplify_eq); exact IH.
  - destruct (decide (m ∈ methods)); simplify_eq. assumption.
  - destruct (worker w) as [output_path|]; [|discriminate].
    pose proof (create_zip_widgets E F (w_gui w) (w_fs w) output_path) as Hw.
    destruct (create_zip (w_gui w) (w_fs w) output_path) as [[g fs] sh].
    simplify_eq. simpl in *. destruct Hw as (_ & _ & -> & _). exact IH.
Qed.

(** X22: at every moment of a session the three buttons are enabled
    exactly when no run is in progress, a run is in progress exactly when
    a worker thread is pending, a run in progress has a non-empty
    selection, and the method is one of the five radio values. *)
Theorem window_is_consistent (w : world) :
  reachable w ->
  buttons_normal (w_gui w) = negb (is_processing (w_gui w)) /\
  (is_processing (w_gui w) = true <-> is_Some (worker w)) /\
  (is_processing (w_gui w) = true -> files_to_zip (w_gui w) <> []) /\
  compression_method (w_gui w) ∈ methods.
Proof.
  intros Hreach.
  destruct (reachable_invariant E F w Hreach) as (_ & Hb & Hne & Hw).
  split_and!; [exact Hb|exact Hw|exact Hne|apply reachable_method, Hreach].
Qed.

Lemma create_zip_shows_no_warning (g : gui) (fs : filesystem)
  (output_path text : string) :
  showwarning text ∉ (create_zip g fs output_path).2.
Proof.
  destruct (with_zipfile g fs output_path) as [st raised] eqn:Hrun.
  rewrite (create_zip_of_run E F g fs output_path st raised Hrun).
  destruct raised as [e|]; [|destruct (decide _)]; cbn [snd];
    intros Hin; apply list_elem_of_singleton in Hin; discriminate.
Qed.

(** X23: in a session the warning "Already processing!" is never shown,
    and while a run is in progress nothing can act on the window but the
    worker itself and the radio buttons: the three buttons are dead. *)
Theorem busy_window_is_locked (w w' : world) (ev : event) (shown : list dialog) :
  reachable w ->
  fire w ev = Some (w', shown) ->
  (showwarning "Already processing!" ∉ shown) /\
  (is_processing (w_gui w) = true ->
   ev = WorkerRuns \/ exists m, ev = SelectMethod m).
Proof.
  intros Hreach Hfire.
  destruct (reachable_invariant E F w Hreach) as (_ & Hb & _ & _).
  assert (Hidle : buttons_normal (w_gui w) = true ->
                  is_processing (w_gui w) = false).
  { rewrite Hb. destruct (is_processing (w_gui w)); [discriminate|reflexivity]. }
  destruct ev as [chosen| |answer|m|]; simpl in Hfire.
  - destruct (buttons_normal (w_gui w)) eqn:Hbn; [|discriminate].
    pose proof (Hidle eq_refl) as Hp. simplify_eq.
    split; [apply not_elem_of_nil|]. intros Hbusy. congruence.
  - destruct (buttons_normal (w_gui w)) eqn:Hbn; [|discriminate].
    pose proof (Hidle eq_refl) as Hp. simplify_eq.
    split; [apply not_elem_of_nil|]. intros Hbusy. congruence.
  - destruct (buttons_normal (w_gui w)) eqn:Hbn; [|discriminate].
    pose proof (Hidle eq_refl) as Hp.
    unfold create_zip_threaded in Hfire. rewrite Hp in Hfire.
    split; [|intros Hbusy; congruence].
    destruct (bool_decide (files_to_zip (w_gui w) = [])).
    + simplify_eq. intros Hin. apply list_elem_of_singleton in Hin. discriminate.
    + destruct (negb _); simplify_eq; apply not_elem_of_nil.
  - split; [|eauto]. destruct (decide (m ∈ methods)); simplify_eq.
    apply not_elem_of_nil.
  - split; [|auto]. destruct (worker w) as [output_path|]; [|discriminate].
    pose proof (create_zip_shows_no_warning (w_gui w) (w_fs w) output_path
                  "Already processing!") as Hno.
    destruct (create_zip (w_gui w) (w_fs w) output_path) as [[g fs] sh].
    simplify_eq. exact Hno.
Qed.

End MoreSessions.

Lemma window_is_consistent_witness :
  let fs := {| files := {[ "/tmp/a.txt"%string := [x61] ]}; denied := ∅ |} in
  let w := {| w_gui := set_processing
                         (add_files fs initial_gui ["/tmp/a.txt"%string]).1 true;
              w_fs := fs; worker := Some "/tmp/out.zip"%string |} in
  buttons_normal (w_gui w) = negb (is_processing (w_gui w)) /\
  files_to_zip (w_gui w) <> [].
Proof.
  intros fs w.
  assert (Hreach : @reachable demo_extern demo_zip w).
  { apply (reach_fire
             {| w_gui := (add_files fs initial_gui ["/tmp/a.txt"%string]).1;
                w_fs := fs; worker := None |}
             (ClickCreate "/tmp/out.zip") w []); [|reflexivity].
    apply (reach_fire (initial_world fs) (ClickAdd ["/tmp/a.txt"%string]) _ []);
      [apply reach_init|reflexivity]. }
  destruct (window_is_consistent demo_extern demo_zip w Hreach)
    as (Hb & _ & Hsel & _).
  split; [exact Hb|apply Hsel; reflexivity].
Defined.

Lemma busy_window_is_locked_witness :
  let fs := {| files := {[ "/tmp/a.txt"%string := [x61] ]}; denied := ∅ |} in
  let w := {| w_gui := (add_files fs initial_gui ["/tmp/a.txt"%string]).1;
              w_fs := fs; worker := None |} in
  showwarning "Already processing!"
    ∉ (create_zip_threaded (w_gui w) "/tmp/out.zip").1.2.
Proof.
  intros fs w.
  assert (Hreach : @reachable demo_extern demo_zip w).
  { apply (reach_fire (initial_world fs) (ClickAdd ["/tmp/a.txt"%string]) _ []);
      [apply reach_init|reflexivity]. }
  apply (busy_window_is_locked demo_extern demo_zip w
           {| w_gui := set_processing (w_gui w) true; w_fs := fs;
              worker := Some "/tmp/out.zip"%string |}
           (ClickCreate "/tmp/out.zip") _ Hreach).
  reflexivity.
Defined.

(** ** Adding the same files again *)

(** X24: choosing the same files a second time changes nothing: once
    [add_files] has run on files that exist, running it again on the same
    choice leaves the selection and the rows as they are. *)
Theorem add_files_twice (fs : filesystem) (chosen : list string) (g : gui) :
  Forall (fun f => is_Some (files fs !! f)) chosen ->
  add_files fs (add_files fs g chosen).1 chosen = ((add_files fs g chosen).1, None).
Proof.
  intros Hall. apply add_files_skips_known, add_files_selects, Hall.
Qed.

Lemma add_files_twice_witness :
  let fs := {| files := {[ "/a"%string := [x61]; "/b"%string := [] ]};
               denied := ∅ |} in
  let g := (add_files fs initial_gui ["/b"; "/a"; "/b"]%string).1 in
  files_to_zip g = ["/b"; "/a"]%string /\
  add_files fs g ["/b"; "/a"; "/b"]%string = (g, None).
Proof.
  intros fs g. split; [reflexivity|].
  apply (add_files_twice fs ["/b"; "/a"; "/b"]%string initial_gui).
  repeat constructor; eexists; reflexivity.
Defined.

(** ** The tree view follows the selection *)

(** X25: the tree view keeps showing exactly the selected paths, in order:
    an event of the window preserves this, provided the files handed over
    by the file dialog exist (so that their sizes can be asked for). *)
Theorem rows_follow_selection (E : Extern) (F : ZipFormat)
  (w w' : world) (ev : event) (shown : list dialog) :
  rows_match (w_gui w) ->
  (forall chosen, ev = ClickAdd chosen ->
                  Forall (fun f => is_Some (files (w_fs w) !! f)) chosen) ->
  fire w ev = Some (w', shown) ->
  rows_match (w_gui w').
Proof.
  unfold rows_match. intros Hrows Hexist Hfire.
  destruct ev as [chosen| |answer|m|]; simpl in Hfire.
  - destruct (buttons_normal (w_gui w)); simplify_eq. simpl.
    apply add_files_rows; [apply Hexist; reflexivity|exact Hrows].
  - destruct (buttons_normal (w_gui w)); simplify_eq. reflexivity.
  - destruct (buttons_normal (w_gui w)); [|discriminate].
    unfold create_zip_threaded in Hfire.
    repeat (break_match; simplify_eq); exact Hrows.
  - destruct (decide (m ∈ methods)); simplify_eq. exact Hrows.
  - destruct (worker w) as [output_path|]; [|discriminate].
    pose proof (create_zip_widgets E F (w_gui w) (w_fs w) output_path) as Hw.
    destruct (create_zip (w_gui w) (w_fs w) output_path) as [[g fs] sh].
    simplify_eq. simpl in *. destruct Hw as (-> & -> & _). exact Hrows.
Qed.

Lemma rows_follow_selection_witness :
  let fs := {| files := {[ "/a"%string := [x61]; "/b"%string := [x62; x63] ]};
               denied := ∅ |} in
  rows_match (add_files fs initial_gui ["/b"; "/a"]%string).1 /\
  tree (add_files fs initial_gui ["/b"; "/a"]%string).1
  = [ {| row_size := "2.0 B"; row_path := "/b" |};
      {| row_size := "1.0 B"; row_path := "/a" |} ].
Proof.
  intros fs. split; [|reflexivity].
  apply (rows_follow_selection demo_extern demo_zip (initial_world fs)
           {| w_gui := (add_files fs initial_gui ["/b"; "/a"]%string).1;
              w_fs := fs; worker := None |}
           (ClickAdd ["/b"; "/a"]%string) []).
  - reflexivity.
  - intros chosen [= <-]. repeat constructor; eexists; reflexivity.
  - reflexivity.
Defined.
